(** * Dose-slice heatmap rendering: a shallow embedding

    The development follows the JavaScript sources of the BNCT planning
    backend: the heatmap post-processing of rendered dose slices
    ([processDoseDataFile] and [generateHeatmapImage]) and the parts of the
    HTTP handlers of [backend/index.js] that list, order and validate the
    rendered slices.

    JavaScript numbers are IEEE 754 doubles; the one place where the program
    computes with a non-integral number (the normalised pixel value
    [pixel.r / 255]) is modelled with the binary64 operations of
    [SpecFloat].  Mutable image objects live in a heap of bitmaps, files in
    a finite map from paths to nodes. *)

From Stdlib Require Import ZArith Strings.Byte Strings.Ascii Floats.SpecFloat.
From stdpp Require Import gmap strings list sorting.

Local Open Scope Z_scope.

(** ** Exceptions and results *)

Inductive error : Type :=
| TypeError (msg : string)
| RangeError (msg : string)
| Error (msg : string)
| ENOENT (path : string)
| ENOTDIR (path : string).

Inductive result (A : Type) : Type :=
| Ok (x : A)
| Err (e : error).

Arguments Ok {A} x.
Arguments Err {A} e.

Definition bind {A B : Type} (m : result A) (k : A -> result B) : result B :=
  match m with
  | Ok x => k x
  | Err e => Err e
  end.

Definition isOk {A : Type} (m : result A) : bool :=
  match m with
  | Ok _ => true
  | Err _ => false
  end.

(** [traverse f l] runs [f] over [l] from left to right and stops at the
    first exception, as a loop whose body may throw. *)
Fixpoint traverse {A B : Type} (f : A -> result B) (l : list A) : result (list B) :=
  match l with
  | [] => Ok []
  | x :: l' =>
      match f x with
      | Err e => Err e
      | Ok y =>
          match traverse f l' with
          | Err e => Err e
          | Ok ys => Ok (y :: ys)
          end
      end
  end.

(** ** JavaScript numbers (binary64) *)

Module JSNumber.

Definition prec : Z := 53.
Definition emax : Z := 1024.

Definition number : Type := spec_float.

(** The double nearest to an integer. *)
Definition ofZ (z : Z) : number := binary_normalize prec emax z 0 false.

Definition add : number -> number -> number := SFadd prec emax.
Definition sub : number -> number -> number := SFsub prec emax.
Definition mul : number -> number -> number := SFmul prec emax.
Definition div : number -> number -> number := SFdiv prec emax.
Definition leb : number -> number -> bool := SFleb.
Definition ltb : number -> number -> bool := SFltb.
Definition eqb : number -> number -> bool := SFeqb.

Definition signed (s : bool) (m : positive) : Z :=
  if s then Z.neg m else Z.pos m.

(** [Math.floor]; [None] stands for the results that are not integers
    (NaN and the infinities). *)
Definition floor (x : number) : option Z :=
  match x with
  | S754_zero _ => Some 0
  | S754_finite s m e =>
      Some (if 0 <=? e then signed s m * 2 ^ e else signed s m / 2 ^ (- e))
  | S754_infinity _ | S754_nan => None
  end.

(** [Math.round]: the nearest integer, ties towards plus infinity, that is
    the exact floor of [x + 1/2]. *)
Definition round (x : number) : option Z :=
  match x with
  | S754_zero _ => Some 0
  | S754_finite s m e =>
      Some (if 0 <=? e then signed s m * 2 ^ e
            else (2 * signed s m + 2 ^ (- e)) / 2 ^ (1 - e))
  | S754_infinity _ | S754_nan => None
  end.

End JSNumber.

(** ** The image library: pixels, bitmaps, image objects *)

Module Jimp.

(** The object returned by [Jimp.intToRGBA]. *)
Record RGBA : Type := mkRGBA { r : Z; g : Z; b : Z; a : Z }.

(** [Jimp.intToRGBA]: the four channels of a 32-bit colour.  The arithmetic
    is on integers below [2^53], where doubles are exact. *)
Definition intToRGBA (i : Z) : RGBA :=
  let r := i / 256 ^ 3 in
  let g := (i - r * 256 ^ 3) / 256 ^ 2 in
  let b := (i - r * 256 ^ 3 - g * 256 ^ 2) / 256 ^ 1 in
  let a := (i - r * 256 ^ 3 - g * 256 ^ 2 - b * 256 ^ 1) / 256 ^ 0 in
  mkRGBA r g b a.

Definition channel_ok (c : Z) : bool := (0 <=? c) && (c <=? 255).

(** [Jimp.rgbaToInt]: rejects a channel outside [0, 255], then packs. *)
Definition rgbaToInt (r g b a : Z) : result Z :=
  if negb (channel_ok r) then Err (Error "r must be between 0 and 255")
  else if negb (channel_ok g) then Err (Error "g must be between 0 and 255")
  else if negb (channel_ok b) then Err (Error "b must be between 0 and 255")
  else if negb (channel_ok a) then Err (Error "a must be between 0 and 255")
  else Ok (r * 256 ^ 3 + g * 256 ^ 2 + b * 256 ^ 1 + a * 256 ^ 0).

(** One pixel of [bitmap.data]: four bytes, red first.  The buffer is only
    addressed at the offsets [(width * y + x) << 2], so it is kept as the
    sequence of its four-byte groups. *)
Record quad : Type := mkQuad { q0 : Byte.byte; q1 : Byte.byte; q2 : Byte.byte; q3 : Byte.byte }.

Definition byteZ (c : Byte.byte) : Z := Z.of_N (Byte.to_N c).

Definition byteOfZ (z : Z) : Byte.byte :=
  match Byte.of_N (Z.to_N (z mod 256)) with
  | Some c => c
  | None => Byte.x00
  end.

(** [Buffer.readUInt32BE] at a pixel. *)
Definition readUInt32BE (q : quad) : Z :=
  byteZ (q0 q) * 2 ^ 24 + byteZ (q1 q) * 2 ^ 16 + byteZ (q2 q) * 2 ^ 8 + byteZ (q3 q).

(** [Buffer.writeUInt32BE]: the value has to be an unsigned 32-bit number. *)
Definition writeUInt32BE (hex : Z) : result quad :=
  if (0 <=? hex) && (hex <? 2 ^ 32)
  then Ok (mkQuad (byteOfZ (Z.shiftr hex 24)) (byteOfZ (Z.shiftr hex 16))
                  (byteOfZ (Z.shiftr hex 8)) (byteOfZ hex))
  else Err (RangeError "value is out of range").

Record Bitmap : Type := mkBitmap {
  width : nat;
  height : nat;
  data : list quad
}.

(** [getPixelIndex] with the default edge handling (coordinates beyond the
    border are pulled back to it); [None] is the index [-1] of an image
    without pixels.  The index counts pixels, not bytes. *)
Definition getPixelIndex (bm : Bitmap) (x y : nat) : option nat :=
  let xi := if (width bm <=? x)%nat then (width bm - 1)%nat else x in
  let yi := if (height bm <=? y)%nat then (height bm - 1)%nat else y in
  if (xi <? width bm)%nat && (yi <? height bm)%nat
  then Some (width bm * yi + xi)%nat
  else None.

Definition getPixelColor (bm : Bitmap) (x y : nat) : result Z :=
  match getPixelIndex bm x y with
  | None => Err (RangeError "offset out of range")
  | Some idx =>
      match data bm !! idx with
      | Some q => Ok (readUInt32BE q)
      | None => Err (RangeError "offset out of range")
      end
  end.

Definition setPixelColor (bm : Bitmap) (hex : Z) (x y : nat) : result Bitmap :=
  match getPixelIndex bm x y with
  | None => Err (RangeError "offset out of range")
  | Some idx =>
      match writeUInt32BE hex with
      | Err e => Err e
      | Ok q =>
          if (idx <? length (data bm))%nat
          then Ok (mkBitmap (width bm) (height bm) (<[idx := q]> (data bm)))
          else Err (RangeError "offset out of range")
      end
  end.

(** A decoded image has one pixel per coordinate. *)
Definition wellFormed (bm : Bitmap) : Prop :=
  length (data bm) = (width bm * height bm)%nat.

End Jimp.

(** Image objects are references into a heap of bitmaps. *)
Definition loc : Type := positive.
Abbreviation heap := (gmap positive Jimp.Bitmap).

(** ** The colour-scale package

    [colormap(options)] of the third-party colour-scale package returns an
    array of [nshades] colours [[r, g, b, alpha]].  The program receives the
    package as a dependency; the heatmap code below takes it as a parameter.
    [createColormap] tabulates the scale the way the package builds it, from
    the anchors of a named scale, so that the program can be evaluated on
    concrete images. *)

Module Colormap.

(** One entry of the returned table.  With the format [rgba] an entry is
    [[r, g, b, alpha]]; the program never reads the fourth component. *)
Record shade : Type := mkShade { red : Z; green : Z; blue : Z }.

Record options : Type := mkOptions {
  colormap : string;
  nshades : nat;
  format : string;
  alpha : Z
}.

Record anchor : Type := mkAnchor { index : JSNumber.number; rgb : shade }.

(** The anchors of the scale [hot]: black, red, yellow, white. *)
Definition hot : list anchor :=
  [ mkAnchor (JSNumber.ofZ 0) (mkShade 0 0 0);
    mkAnchor (JSNumber.div (JSNumber.ofZ 3) (JSNumber.ofZ 10)) (mkShade 230 0 0);
    mkAnchor (JSNumber.div (JSNumber.ofZ 6) (JSNumber.ofZ 10)) (mkShade 255 210 0);
    mkAnchor (JSNumber.ofZ 1) (mkShade 255 255 255) ].

Definition lerp (v0 v1 t : JSNumber.number) : JSNumber.number :=
  JSNumber.add (JSNumber.mul v0 (JSNumber.sub (JSNumber.ofZ 1) t)) (JSNumber.mul v1 t).

Definition roundZ (x : JSNumber.number) : Z := default 0 (JSNumber.round x).

Definition mix (from to : shade) (amt : JSNumber.number) : shade :=
  mkShade (roundZ (lerp (JSNumber.ofZ (red from)) (JSNumber.ofZ (red to)) amt))
          (roundZ (lerp (JSNumber.ofZ (green from)) (JSNumber.ofZ (green to)) amt))
          (roundZ (lerp (JSNumber.ofZ (blue from)) (JSNumber.ofZ (blue to)) amt)).

(** Linear steps between consecutive anchors, the upper anchor excluded. *)
Fixpoint ramp (steps : list (Z * shade)) : list shade :=
  match steps with
  | (i0, c0) :: rest =>
      match rest with
      | (i1, c1) :: _ =>
          let nsteps := i1 - i0 in
          map (fun j => mix c0 c1 (JSNumber.div (JSNumber.ofZ (Z.of_nat j)) (JSNumber.ofZ nsteps)))
              (seq 0 (Z.to_nat nsteps)) ++ ramp rest
      | [] => []
      end
  | [] => []
  end.

Definition createColormap (cmap : list anchor) (nshades : nat) : result (list shade) :=
  let n := Z.of_nat nshades - 1 in
  if n + 1 <? Z.of_nat (length cmap)
  then Err (Error "map requires nshades to be at least the number of anchors")
  else
    let indicies := map (fun c => roundZ (JSNumber.mul (index c) (JSNumber.ofZ n))) cmap in
    match last cmap with
    | None => Err (TypeError "cannot read properties of undefined")
    | Some top => Ok (ramp (zip indicies (map rgb cmap)) ++ [rgb top])
    end.

(** The package restricted to the scale the program asks for. *)
Definition package (spec : options) : result (list shade) :=
  if String.eqb (colormap spec) "hot"
  then createColormap hot (nshades spec)
  else Err (Error (colormap spec +:+ " not a supported colorscale")).

End Colormap.

(** ** [generateHeatmapImage] *)

Section HeatmapImage.

Variable colormap : Colormap.options -> result (list Colormap.shade).

Definition colormapOptions : Colormap.options :=
  Colormap.mkOptions "hot" 256 "rgba" 1.

(** The coordinates in the order of the two nested loops: rows outside,
    columns inside. *)
Definition coordinates (width height : nat) : list (nat * nat) :=
  flat_map (fun y => map (fun x => (x, y)) (seq 0 width)) (seq 0 height).

(** First loop: the pixels of the image, as RGBA objects. *)
Definition readPixels (image : Jimp.Bitmap) : result (list Jimp.RGBA) :=
  traverse (fun xy => bind (Jimp.getPixelColor image (fst xy) (snd xy))
                           (fun color => Ok (Jimp.intToRGBA color)))
           (coordinates (Jimp.width image) (Jimp.height image)).

(** [pixel.r / 255] *)
Definition normalized (pixel : Jimp.RGBA) : JSNumber.number :=
  JSNumber.div (JSNumber.ofZ (Jimp.r pixel)) (JSNumber.ofZ 255).

(** [Math.floor(value * (colorMap.length - 1))] *)
Definition shadeIndex (colorMap : list Colormap.shade) (pixel : Jimp.RGBA) : option Z :=
  JSNumber.floor (JSNumber.mul (normalized pixel)
                               (JSNumber.ofZ (Z.of_nat (length colorMap) - 1))).

(** [colorMap[k]]: an element for an index inside the array, [undefined]
    otherwise. *)
Definition element (colorMap : list Colormap.shade) (k : option Z) : option Colormap.shade :=
  match k with
  | Some k => if 0 <=? k then colorMap !! Z.to_nat k else None
  | None => None
  end.

(** Second loop, from index [i] on: every pixel of the image object is
    overwritten in the heap. *)
Fixpoint paintPixels (colorMap : list Colormap.shade) (width : nat) (image : loc)
    (pixels : list Jimp.RGBA) (i : nat) (h : heap) : heap * result unit :=
  match pixels with
  | [] => (h, Ok tt)
  | pixel :: rest =>
      match element colorMap (shadeIndex colorMap pixel) with
      | None => (h, Err (TypeError "cannot read properties of undefined"))
      | Some color =>
          let x := (i mod width)%nat in
          let y := (i / width)%nat in
          match Jimp.rgbaToInt (Colormap.red color) (Colormap.green color)
                               (Colormap.blue color) 255 with
          | Err e => (h, Err e)
          | Ok hex =>
              match h !! image with
              | None => (h, Err (TypeError "image is undefined"))
              | Some bm =>
                  match Jimp.setPixelColor bm hex x y with
                  | Err e => (h, Err e)
                  | Ok bm' => paintPixels colorMap width image rest (S i) (<[image := bm']> h)
                  end
              end
          end
      end
  end.

(** The function returns the image object it was given. *)
Definition generateHeatmapImage (h : heap) (image : loc) : heap * result loc :=
  match h !! image with
  | None => (h, Err (TypeError "image is undefined"))
  | Some bm =>
      let width := Jimp.width bm in
      match readPixels bm with
      | Err e => (h, Err e)
      | Ok pixels =>
          match colormap colormapOptions with
          | Err e => (h, Err e)
          | Ok colorMap =>
              match paintPixels colorMap width image pixels 0 h with
              | (h', Err e) => (h', Err e)
              | (h', Ok _) => (h', Ok image)
              end
          end
      end
  end.

End HeatmapImage.

(** ** Replies of the HTTP handlers *)

Inductive response (A : Type) : Type :=
| Json200 (body : A)
| Json500 (message : string) (err : error).

Arguments Json200 {A} body.
Arguments Json500 {A} message err.

(** ** Files *)

Module FS.

(** What a file holds: an encoded image, or bytes that no image decoder
    accepts. *)
Inductive content : Type :=
| Png (bm : Jimp.Bitmap)
| Other.

Inductive node : Type :=
| Dir (entries : list string)
| File (c : content).

End FS.

Abbreviation disk := (gmap string FS.node).

(** [path.join] of a folder and a plain name, where the separator is the
    slash: for a folder path in normal form and a name that is one segment,
    [path.join] puts the separator between them.  The paths serve as the
    keys of the files. *)
Definition join (dir name : string) : string := dir +:+ "/" +:+ name.

Fixpoint hasSlash (s : string) : bool :=
  match s with
  | EmptyString => false
  | String c s' => Ascii.eqb c "/"%char || hasSlash s'
  end.

(** [path.basename] *)
Fixpoint basename (s : string) : string :=
  match s with
  | EmptyString => EmptyString
  | String c s' =>
      if hasSlash s' then basename s'
      else if Ascii.eqb c "/"%char then s' else s
  end.

(** [fs.readdir]: the entries of a folder, in the order the system lists
    them; it throws [ENOENT] where nothing is, and [ENOTDIR] where a file
    is. *)
Definition readdir (d : disk) (p : string) : result (list string) :=
  match d !! p with
  | Some (FS.Dir entries) => Ok entries
  | Some (FS.File _) => Err (ENOTDIR p)
  | None => Err (ENOENT p)
  end.

(** [fs.existsSync] *)
Definition existsSync (d : disk) (p : string) : bool :=
  match d !! p with
  | Some _ => true
  | None => false
  end.

(** [Jimp.read]: decodes the file at a path. *)
Definition Jimp_read (d : disk) (p : string) : result Jimp.Bitmap :=
  match d !! p with
  | Some (FS.File (FS.Png bm)) => Ok bm
  | Some _ => Err (Error "Could not find MIME for Buffer")
  | None => Err (ENOENT p)
  end.

(** [image.writeAsync]: encodes the image over the file at a path. *)
Definition writeAsync (d : disk) (p : string) (bm : Jimp.Bitmap) : disk :=
  <[p := FS.File (FS.Png bm)]> d.

(** ** [processDoseDataFile] *)

(** [npyPath.replace(/\.npy$/, '.nii')] *)
Fixpoint replaceNpySuffix (s : string) : string :=
  match s with
  | EmptyString => EmptyString
  | String c s' =>
      if String.eqb s ".npy" then ".nii" else String c (replaceNpySuffix s')
  end.

Definition views : list string := ["axial"; "coronal"; "sagittal"].

(** A name of ASCII characters: each of its bytes is one code unit of the
    JavaScript string. *)
Fixpoint asciiName (s : string) : bool :=
  match s with
  | EmptyString => true
  | String c s' => (nat_of_ascii c <? 128)%nat && asciiName s'
  end.

Section DoseDataFile.

Variable colormap : Colormap.options -> result (list Colormap.shade).

(** The external interpreter, run on a script with its arguments: it may
    change the files and may fail. *)
Variable python : list string -> disk -> disk * result unit.

Variable dirname : string.

(** The image object that [Jimp.read] allocates is the only object of the
    loop body; it lives at a fixed address of a heap of its own. *)
Definition imageRef : loc := 1%positive.

(** Inner loop: every file of a view folder is read, recoloured and written
    back over itself. *)
Fixpoint heatFiles (viewFolder : string) (files : list string) (d : disk)
    : disk * result (list string) :=
  match files with
  | [] => (d, Ok [])
  | file :: rest =>
      let filePath := join viewFolder file in
      match Jimp_read d filePath with
      | Err e => (d, Err e)
      | Ok image =>
          match generateHeatmapImage colormap {[ imageRef := image ]} imageRef with
          | (_, Err e) => (d, Err e)
          | (h, Ok heatmapImage) =>
              match h !! heatmapImage with
              | None => (d, Err (TypeError "image is undefined"))
              | Some bm =>
                  match heatFiles viewFolder rest (writeAsync d filePath bm) with
                  | (d', Err e) => (d', Err e)
                  | (d', Ok paths) => (d', Ok (filePath :: paths))
                  end
              end
          end
      end
  end.

(** Outer loop over the views; [acc] is the object [result]. *)
Fixpoint heatViews (outputDir : string) (vs : list string)
    (acc : gmap string (list string)) (d : disk)
    : disk * result (gmap string (list string)) :=
  match vs with
  | [] => (d, Ok acc)
  | view :: rest =>
      let viewFolder := join outputDir view in
      match readdir d viewFolder with
      | Err e => (d, Err e)
      | Ok files =>
          match heatFiles viewFolder files d with
          | (d', Err e) => (d', Err e)
          | (d', Ok paths) => heatViews outputDir rest (<[view := paths]> acc) d'
          end
      end
  end.

Definition processDoseDataFile (npyPath outputDir refNiiPath : string) (d : disk)
    : disk * result (gmap string (list string)) :=
  let doseNiiPath := replaceNpySuffix npyPath in
  let resampleScript := join dirname "resample_npy_to_nii.py" in
  let previewScript := join dirname "nii_preview.py" in
  match python [resampleScript; npyPath; refNiiPath; doseNiiPath] d with
  | (d1, Err e) => (d1, Err e)
  | (d1, Ok _) =>
      match python [previewScript; doseNiiPath; outputDir] d1 with
      | (d2, Err e) => (d2, Err e)
      | (d2, Ok _) => heatViews outputDir views ∅ d2
      end
  end.

(** ** The handlers of [backend/index.js] *)

(** [files.sort()]: the default order of [Array.prototype.sort] compares the
    strings by their code units.  The names here are strings of bytes, and
    [String.le] compares them byte by byte: for names of ASCII characters
    (see [asciiName]) the bytes are the code units. *)
Definition jsSort (files : list string) : list string := merge_sort String.le files.

Definition field (o : gmap string (list string)) (k : string) : list string :=
  default [] (o !! k).

(** *** [/upload-nii]: the listing of the rendered slices *)

Record uploadSlices : Type := mkUploadSlices {
  slices : gmap string (list string);
  maxSlices : gmap string nat
}.

Definition uploadUrls (uploadFolder view : string) (files : list string) : list string :=
  map (fun file => "/uploads/" +:+ uploadFolder +:+ "/slices/" +:+ view +:+ "/" +:+ file)
      (jsSort files).

Fixpoint uploadViews (uploadFolder outputDir : string) (vs : list string)
    (acc : uploadSlices) (d : disk) : result uploadSlices :=
  match vs with
  | [] => Ok acc
  | view :: rest =>
      let viewDir := join outputDir view in
      match readdir d viewDir with
      | Err e => Err e
      | Ok files =>
          uploadViews uploadFolder outputDir rest
            (mkUploadSlices (<[view := uploadUrls uploadFolder view files]> (slices acc))
                            (<[view := length files]> (maxSlices acc))) d
      end
  end.

(** The handler from the listing on; unpacking, conversion and rendering
    come before and are done by external programs. *)
Definition uploadNiiListing (uploadFolder outputDir : string) (d : disk)
    : response uploadSlices :=
  let initial :=
    mkUploadSlices (<["axial" := []]> (<["coronal" := []]> (<["sagittal" := []]> ∅)))
                   (<["axial" := 0%nat]> (<["coronal" := 0%nat]> (<["sagittal" := 0%nat]> ∅))) in
  match uploadViews uploadFolder outputDir views initial d with
  | Ok r => Json200 r
  | Err e => Json500 "处理失败" e
  end.

(** *** [/generate-wholebody-dose-map]: step 4 and the reply *)

Definition toUpperCase (c : ascii) : ascii :=
  let n := nat_of_ascii c in
  if (97 <=? n)%nat && (n <=? 122)%nat then ascii_of_nat (n - 32) else c.

(** [`dose${view.charAt(0).toUpperCase() + view.slice(1)}`] *)
Definition doseKey (view : string) : string :=
  match view with
  | EmptyString => "dose"
  | String c rest => "dose" +:+ String (toUpperCase c) rest
  end.

Definition doseUrls (view : string) (files : list string) : list string :=
  map (fun file => "/dosepng/wholebody/" +:+ view +:+ "/" +:+ file) (jsSort files).

Fixpoint doseViews (outputDir : string) (vs : list string)
    (acc : gmap string (list string)) (d : disk) : result (gmap string (list string)) :=
  match vs with
  | [] => Ok acc
  | view :: rest =>
      let viewDir := join outputDir view in
      if existsSync d viewDir then
        match readdir d viewDir with
        | Err e => Err e
        | Ok files =>
            if (0 <? length files)%nat
            then doseViews outputDir rest (<[doseKey view := doseUrls view files]> acc) d
            else doseViews outputDir rest acc d
        end
      else doseViews outputDir rest acc d
  end.

Record doseMap : Type := mkDoseMap {
  totalSlices : nat;
  doseSlices : gmap string (list string)
}.

Definition wholebodyDoseMapListing (outputDir : string) (d : disk) : response doseMap :=
  let initial : gmap string (list string) :=
    <["doseAxial" := []]> (<["doseCoronal" := []]> (<["doseSagittal" := []]> ∅)) in
  match doseViews outputDir views initial d with
  | Err e => Json500 "全身剂量分布图生成失败" e
  | Ok r =>
      let totalSlices :=
        (length (field r "doseAxial") + length (field r "doseCoronal")
         + length (field r "doseSagittal"))%nat in
      if (totalSlices =? 0)%nat
      then Json500 "全身剂量分布图生成失败"
                   (Error "未生成任何剂量切片，请检查dose_to_png.py的执行日志")
      else Json200 (mkDoseMap totalSlices r)
  end.

(** *** [/process-npy]: from the call of [processDoseDataFile] on *)

Record doseImages : Type := mkDoseImages {
  totalImages : nat;
  images : gmap string (list string)
}.

Definition processNpy (npyPath baseName outputDir niiRefPath : string) (d : disk)
    : disk * response doseImages :=
  match processDoseDataFile npyPath outputDir niiRefPath d with
  | (d', Err e) => (d', Json500 "NPY剂量图像生成失败" e)
  | (d', Ok r) =>
      let totalImages :=
        (length (field r "axial") + length (field r "coronal")
         + length (field r "sagittal"))%nat in
      if (totalImages =? 0)%nat
      then (d', Json500 "NPY剂量图像生成失败" (Error "未生成任何剂量图像"))
      else
        let url view image := "/dosepng/" +:+ baseName +:+ "/" +:+ view +:+ "/" +:+ basename image in
        (d', Json200 (mkDoseImages totalImages
               (<["axial" := map (url "axial") (field r "axial")]>
                 (<["coronal" := map (url "coronal") (field r "coronal")]>
                   (<["sagittal" := map (url "sagittal") (field r "sagittal")]> ∅)))))
  end.

End DoseDataFile.

(** ** Calls with an argument list

    A JavaScript call binds the parameters by position and drops the
    arguments that have no parameter. *)

Inductive value : Type :=
| VImage (image : loc)
| VString (s : string)
| VNumber (x : JSNumber.number)
| VUndefined.

Definition call_generateHeatmapImage
    (colormap : Colormap.options -> result (list Colormap.shade))
    (args : list value) (h : heap) : heap * result loc :=
  match args with
  | VImage image :: _ => generateHeatmapImage colormap h image
  | _ => (h, Err (TypeError "cannot read properties of undefined"))
  end.

(** ** The slice writers *)

Module SliceNames.

(** Modelled from the spec: the character of a decimal digit (the slice
    writers are not among the sources). *)
Definition digit (d : nat) : ascii := ascii_of_nat (48 + d).

(** Modelled from the spec: the decimal digits of an index, the least
    significant one produced first and put in front of [acc].  The slice
    writers ([nii_preview.py], [dose_to_png.py]) are not among the sources;
    the specification gives the names as a zero-padded index and an
    extension. *)
Fixpoint decimalOnto (fuel n : nat) (acc : string) : string :=
  match fuel with
  | O => acc
  | S fuel' =>
      let acc' := String (digit (n mod 10)) acc in
      if (n / 10 =? 0)%nat then acc' else decimalOnto fuel' (n / 10) acc'
  end.

(** Modelled from the spec: [k] zeros in front of [s] (the slice writers
    are not among the sources). *)
Fixpoint zeros (k : nat) (s : string) : string :=
  match k with
  | O => s
  | S k' => String "0"%char (zeros k' s)
  end.

(** Modelled from the spec: the zero-padded index of width [w]; an index
    with more than [w] digits is written in full (the slice writers are not
    among the sources). *)
Definition zeroPadded (w i : nat) (acc : string) : string :=
  let digits := decimalOnto (S i) i EmptyString in
  zeros (w - String.length digits) (digits +:+ acc).

(** Modelled from the spec: the name of slice [i], [<zero-padded-index>.<ext>]
    (the slice writers are not among the sources). *)
Definition sliceName (w : nat) (ext : string) (i : nat) : string :=
  zeroPadded w i (String "."%char ext).

(** Modelled from the spec: the names of a rendered set of [n] slices (the
    slice writers are not among the sources). *)
Definition sliceNames (w : nat) (ext : string) (n : nat) : list string :=
  map (sliceName w ext) (seq 0 n).

(** Modelled from the spec: the number of decimal digits of an index (the
    slice writers are not among the sources). *)
Definition digits (i : nat) : nat := String.length (decimalOnto (S i) i EmptyString).

(** Modelled from the spec: the common width of the indices of a set of
    [n] slices.  The specification fixes no width; it asks for names whose
    lexical order is the order of the indices.  The width is therefore the
    least width [minWidth] of the writer, or the number of digits of the
    largest index [n - 1] where that is more (the slice writers are not
    among the sources). *)
Definition width (minWidth n : nat) : nat := Nat.max minWidth (digits (n - 1)).

(** Modelled from the spec: the names of a rendered set of [n] slices,
    padded to the common width of the set (the slice writers are not among
    the sources). *)
Definition renderedNames (minWidth : nat) (ext : string) (n : nat) : list string :=
  sliceNames (width minWidth n) ext n.

End SliceNames.

(** ** Descriptions used in the statements *)

(** The normalisation as the specification words it:
    [clamp((value - vmin) / (vmax - vmin), 0, 1)], and [0] for an empty
    range. *)
Definition clamp (x lo hi : JSNumber.number) : JSNumber.number :=
  if JSNumber.ltb x lo then lo else if JSNumber.ltb hi x then hi else x.

Definition specNormalized (value vmin vmax : JSNumber.number) : JSNumber.number :=
  if JSNumber.eqb vmax vmin then JSNumber.ofZ 0
  else clamp (JSNumber.div (JSNumber.sub value vmin) (JSNumber.sub vmax vmin))
             (JSNumber.ofZ 0) (JSNumber.ofZ 1).

(** The RGBA object the first loop makes of a stored pixel. *)
Definition pixelOf (q : Jimp.quad) : Jimp.RGBA := Jimp.intToRGBA (Jimp.readUInt32BE q).

(** The stored pixel of a table colour, fully opaque. *)
Definition quadOfShade (s : Colormap.shade) : Jimp.quad :=
  Jimp.mkQuad (Jimp.byteOfZ (Colormap.red s)) (Jimp.byteOfZ (Colormap.green s))
              (Jimp.byteOfZ (Colormap.blue s)) (Jimp.byteOfZ 255).

Definition shadeOk (s : Colormap.shade) : bool :=
  Jimp.channel_ok (Colormap.red s) && Jimp.channel_ok (Colormap.green s)
  && Jimp.channel_ok (Colormap.blue s).

(** A table as the package returns it for 256 shades: 256 colours with
    integral channels in [0, 255]. *)
Definition tableOk (colorMap : list Colormap.shade) : bool :=
  (length colorMap =? 256)%nat && forallb shadeOk colorMap.

(** The table colour of a red value. *)
Definition shadeOfRed (colorMap : list Colormap.shade) (red : Z) : Colormap.shade :=
  default (Colormap.mkShade 0 0 0) (colorMap !! Z.to_nat red).

Definition heatQuad (colorMap : list Colormap.shade) (q : Jimp.quad) : Jimp.quad :=
  quadOfShade (shadeOfRed colorMap (Jimp.byteZ (Jimp.q0 q))).

(** The heatmap of a bitmap: same size, every pixel recoloured. *)
Definition heatmap (colorMap : list Colormap.shade) (bm : Jimp.Bitmap) : Jimp.Bitmap :=
  Jimp.mkBitmap (Jimp.width bm) (Jimp.height bm) (map (heatQuad colorMap) (Jimp.data bm)).

(** The second loop on the bitmap of the image object alone. *)
Fixpoint paintBitmap (colorMap : list Colormap.shade) (width : nat)
    (pixels : list Jimp.RGBA) (i : nat) (bm : Jimp.Bitmap) : Jimp.Bitmap * result unit :=
  match pixels with
  | [] => (bm, Ok tt)
  | pixel :: rest =>
      match element colorMap (shadeIndex colorMap pixel) with
      | None => (bm, Err (TypeError "cannot read properties of undefined"))
      | Some color =>
          match Jimp.rgbaToInt (Colormap.red color) (Colormap.green color)
                               (Colormap.blue color) 255 with
          | Err e => (bm, Err e)
          | Ok hex =>
              match Jimp.setPixelColor bm hex (i mod width)%nat (i / width)%nat with
              | Err e => (bm, Err e)
              | Ok bm' => paintBitmap colorMap width rest (S i) bm'
              end
          end
      end
  end.

(** What a call does to the bitmap of its argument, and whether it throws. *)
Definition heatBitmap (colormap : Colormap.options -> result (list Colormap.shade))
    (bm : Jimp.Bitmap) : Jimp.Bitmap * result unit :=
  match readPixels bm with
  | Err e => (bm, Err e)
  | Ok pixels =>
      match colormap colormapOptions with
      | Err e => (bm, Err e)
      | Ok colorMap => paintBitmap colorMap (Jimp.width bm) pixels 0 bm
      end
  end.

(** A grey pixel of a rendered slice. *)
Definition grayQuad (v : Z) : Jimp.quad :=
  Jimp.mkQuad (Jimp.byteOfZ v) (Jimp.byteOfZ v) (Jimp.byteOfZ v) (Jimp.byteOfZ 255).

(** The 4x4 slice holding the values 0, 1, ..., 15. *)
Definition slice4x4 : Jimp.Bitmap :=
  Jimp.mkBitmap 4 4 (map (fun v => grayQuad (Z.of_nat v)) (seq 0 16)).

(** The files of a folder, overwritten by their heatmaps from left to
    right. *)
Definition overwritten (colorMap : list Colormap.shade) (folder : string)
    (files : list string) (d : disk) : disk :=
  foldl (fun d file =>
           match Jimp_read d (join folder file) with
           | Ok bm => writeAsync d (join folder file) (heatmap colorMap bm)
           | Err _ => d
           end) d files.




(** The index computed for the red value [n] is [n] itself. *)
Definition indexCheck (n : nat) : bool :=
  let p := Jimp.mkRGBA (Z.of_nat n) 0 0 0 in
  match JSNumber.floor (JSNumber.mul (normalized p) (JSNumber.ofZ 255)) with
  | Some k => k =? Z.of_nat n
  | None => false
  end.

(** For the red value [n] the normalised value is the clamped quotient
    over [0, 255] and lies in [0, 1]. *)
Definition normalizedCheck (n : nat) : bool :=
  let p := Jimp.mkRGBA (Z.of_nat n) 0 0 0 in
  match specNormalized (JSNumber.ofZ (Z.of_nat n)) (JSNumber.ofZ 0) (JSNumber.ofZ 255),
        normalized p with
  | S754_zero s, S754_zero s' => Bool.eqb s s'
  | S754_finite s m e, S754_finite s' m' e' => Bool.eqb s s' && (m =? m')%positive && (e =? e')
  | _, _ => false
  end
  && JSNumber.leb (JSNumber.ofZ 0) (normalized p)
  && JSNumber.leb (normalized p) (JSNumber.ofZ 1).

(** ** Concrete tables, images and folders *)

(** The table the package returns for the options of the program. *)
Definition hot256 : list Colormap.shade :=
  match Colormap.package colormapOptions with
  | Ok colorMap => colorMap
  | Err _ => []
  end.

(** An image with the reds of [slice4x4] and other green, blue and alpha
    channels. *)
Definition tinted4x4 : Jimp.Bitmap :=
  Jimp.mkBitmap 4 4
    (map (fun v => Jimp.mkQuad (Jimp.byteOfZ (Z.of_nat v)) Byte.x00 Byte.xff Byte.x07)
         (seq 0 16)).



(** A dose folder whose three view folders are empty. *)
Definition noSlices : disk :=
  <["out/axial" := FS.Dir []]>
  (<["out/coronal" := FS.Dir []]>
  (<["out/sagittal" := FS.Dir []]> ∅)).

(** Scripts that succeed and write nothing. *)
Definition idle (args : list string) (d : disk) : disk * result unit := (d, Ok tt).

(** A session folder with rendered slices, listed out of order. *)
Definition renderedSlices : disk :=
  <["out/axial" := FS.Dir ["002.png"; "000.png"; "001.png"]]>
  (<["out/coronal" := FS.Dir ["001.png"; "000.png"]]>
  (<["out/sagittal" := FS.Dir ["000.png"]]> ∅)).

(** ** Numbered input files ([/build-wholebody-phantom], [/run-mcnp-computation]) *)

(** [s.endsWith(suffix)] *)
Fixpoint endsWith (s suffix : string) : bool :=
  String.eqb s suffix
  || match s with
     | EmptyString => false
     | String _ s' => endsWith s' suffix
     end.

(** The class [\d] of a regular expression. *)
Definition isDigit (c : ascii) : bool :=
  (48 <=? nat_of_ascii c)%nat && (nat_of_ascii c <=? 57)%nat.

Fixpoint dropDigits (s : string) : string :=
  match s with
  | EmptyString => EmptyString
  | String c s' => if isDigit c then dropDigits s' else s
  end.

(** [/^\d+\.inp$/.test(f)] *)
Definition isNumberedInp (f : string) : bool :=
  match f with
  | EmptyString => false
  | String c _ => isDigit c && String.eqb (dropDigits f) ".inp"
  end.

Fixpoint stripPrefix (pat s : string) : option string :=
  match pat, s with
  | EmptyString, _ => Some s
  | String p pat', String c s' => if Ascii.eqb p c then stripPrefix pat' s' else None
  | String _ _, EmptyString => None
  end.

(** [s.replace(pat, rep)] for a string pattern: the first occurrence is
    replaced. *)
Fixpoint replaceFirst (pat rep s : string) {struct s} : string :=
  match stripPrefix pat s with
  | Some rest => rep +:+ rest
  | None =>
      match s with
      | EmptyString => EmptyString
      | String c s' => String c (replaceFirst pat rep s')
      end
  end.

(** [s.replace(/\D/g, '')] *)
Fixpoint digitsOnly (s : string) : string :=
  match s with
  | EmptyString => EmptyString
  | String c s' => if isDigit c then String c (digitsOnly s') else digitsOnly s'
  end.

Definition digitValue (c : ascii) : nat := nat_of_ascii c - 48.

Fixpoint parseDigits (acc : nat) (s : string) : nat :=
  match s with
  | EmptyString => acc
  | String c s' => if isDigit c then parseDigits (10 * acc + digitValue c) s' else acc
  end.

(** [parseInt(s)] on the strings the program passes to it, which hold
    decimal digits only: the number they spell, [None] (for [NaN]) when
    there is no digit.  The numbers are exact integers; the program computes
    with doubles, which are exact below [2^53]. *)
Definition parseInt (s : string) : option nat :=
  match s with
  | EmptyString => None
  | String c _ => if isDigit c then Some (parseDigits 0 s) else None
  end.

(** The text of a non-negative integer, as a template literal prints it. *)
Definition numberToString (n : nat) : string :=
  SliceNames.decimalOnto (S n) n EmptyString.

(** The numbers of the entries named [<digits>.inp]. *)
Definition existingNumbers (entries : list string) : list nat :=
  omap (fun f => parseInt (replaceFirst ".inp" EmptyString f))
       (List.filter (fun f => endsWith f ".inp" && isNumberedInp f) entries).

(** [existingFiles.length > 0 ? Math.max(...existingFiles) + 1 : 1] *)
Definition nextNumber (entries : list string) : nat :=
  match existingNumbers entries with
  | [] => 1%nat
  | n :: ns => S (foldr Nat.max n ns)
  end.

Definition targetFileName (entries : list string) : string :=
  numberToString (nextNumber entries) +:+ ".inp".

(** [parseInt(a.replace(/\D/g, ''))] *)
Definition fileNumber (f : string) : option nat := parseInt (digitsOnly f).

(** The comparison function of the sort: [numA - numB]; a result [NaN]
    counts as zero. *)
Definition compareNumbers (a b : string) : Z :=
  match fileNumber a, fileNumber b with
  | Some x, Some y => Z.of_nat x - Z.of_nat y
  | _, _ => 0
  end.

(** [Array.prototype.sort] with a comparison function is a stable sort: an
    element goes in front of the first one it does not compare greater
    than.  With names without a digit the comparison is not an order and
    the result is left to the implementation. *)
Fixpoint insertWith {A : Type} (cmp : A -> A -> Z) (x : A) (l : list A) : list A :=
  match l with
  | [] => [x]
  | y :: l' => if cmp x y <=? 0 then x :: l else y :: insertWith cmp x l'
  end.

Definition sortWith {A : Type} (cmp : A -> A -> Z) (l : list A) : list A :=
  foldr (insertWith cmp) [] l.

Definition sortedInputFiles (mcnpInputFiles : list string) : list string :=
  sortWith compareNumbers (List.filter (fun file => endsWith file ".inp") mcnpInputFiles).

Record mcnpResult : Type := mkMcnpResult {
  file : string;
  stdout : string;
  stderr : string
}.

Inductive mcnpResponse : Type :=
| Mcnp200 (results : list mcnpResult)
| Mcnp400 (message : string)
| Mcnp500 (message : string) (err : error).

Section McnpComputation.

(** [run_batch.py] on an input file: it may change the files, and gives its
    two outputs or fails. *)
Variable runBatch : string -> disk -> disk * result (string * string).

Fixpoint runInputs (inputDir : string) (files : list string) (d : disk)
    : disk * result (list mcnpResult) :=
  match files with
  | [] => (d, Ok [])
  | filePath :: rest =>
      match runBatch (join inputDir filePath) d with
      | (d', Err e) => (d', Err e)
      | (d', Ok out) =>
          match runInputs inputDir rest d' with
          | (d'', Err e) => (d'', Err e)
          | (d'', Ok results) => (d'', Ok (mkMcnpResult filePath (fst out) (snd out) :: results))
          end
      end
  end.

(** The reply of the handler.  After the runs the handler makes sure the
    output folder exists, which is taken to succeed, and writes a note on
    the session in a [try] block of its own; neither has a part in the
    reply. *)
Definition runMcnpComputation (inputDir : string) (d : disk) : mcnpResponse :=
  match readdir d inputDir with
  | Err e => Mcnp500 "MCNP计算失败" e
  | Ok mcnpInputFiles =>
      let inputFiles := List.filter (fun file => endsWith file ".inp") mcnpInputFiles in
      if (length inputFiles =? 0)%nat
      then Mcnp400 "No .inp files found in the input directory"
      else
        match runInputs inputDir (sortWith compareNumbers inputFiles) d with
        | (_, Err e) => Mcnp500 "MCNP计算失败" e
        | (_, Ok results) => Mcnp200 results
        end
  end.

End McnpComputation.

(** ** The reference image from an axial path ([/generate-wholebody-dose-map]) *)

(** [s.split(sep)] for a separator of one character. *)
Fixpoint splitOn (sep : ascii) (s : string) : list string :=
  match s with
  | EmptyString => [EmptyString]
  | String c s' =>
      if Ascii.eqb c sep then EmptyString :: splitOn sep s'
      else match splitOn sep s' with
           | first :: rest => String c first :: rest
           | [] => [String c EmptyString]
           end
  end.

(** [axialImagePath.split('/')[2]] *)
Definition uploadFolderOf (axialImagePath : string) : option string :=
  splitOn "/"%char axialImagePath !! 2%nat.

(** ** The viewer: stepping through the dose slices *)

Module BNCTPlatform.

Record data : Type := mkData {
  slices : gmap string (list string);
  doseSliceIndices : gmap string Z
}.

(** [str.charAt(0).toUpperCase() + str.slice(1)] *)
Definition capitalize (str : string) : string :=
  match str with
  | EmptyString => EmptyString
  | String c rest => String (toUpperCase c) rest
  end.

Definition previousDoseSlice (view : string) (this : data) : data :=
  match doseSliceIndices this !! view with
  | Some i =>
      if 0 <? i
      then mkData (slices this) (<[view := i - 1]> (doseSliceIndices this))
      else this
  | None => this
  end.

Definition nextDoseSlice (view : string) (this : data) : data :=
  let doseKey := "dose" +:+ capitalize view in
  let maxIndex := Z.of_nat (length (default [] (slices this !! doseKey))) - 1 in
  match doseSliceIndices this !! view with
  | Some i =>
      if i <? maxIndex
      then mkData (slices this) (<[view := i + 1]> (doseSliceIndices this))
      else this
  | None => this
  end.

Inductive click : Type :=
| Previous (view : string)
| Next (view : string).

Definition step (this : data) (c : click) : data :=
  match c with
  | Previous view => previousDoseSlice view this
  | Next view => nextDoseSlice view this
  end.

(** The slice shown for a view: [slices[doseKey][doseSliceIndices[view]]]. *)
Definition shown (view : string) (this : data) : option string :=
  match doseSliceIndices this !! view with
  | Some i =>
      if 0 <=? i
      then default [] (slices this !! ("dose" +:+ capitalize view)) !! Z.to_nat i
      else None
  | None => None
  end.

End BNCTPlatform.

(** ** Descriptions used in the further statements *)

(** A path that holds a decoded image. *)
Definition decodable (d : disk) (p : string) : Prop :=
  exists bm, d !! p = Some (FS.File (FS.Png bm)) /\ Jimp.wellFormed bm.

(** A string of decimal digits. *)
Fixpoint allDigits (s : string) : bool :=
  match s with
  | EmptyString => true
  | String c s' => isDigit c && allDigits s'
  end.

(** The order of the numbers that the digits of two names spell. *)
Definition byNumber (a b : string) : Prop :=
  match fileNumber a, fileNumber b with
  | Some x, Some y => (x <= y)%nat
  | _, _ => False
  end.


(** The number of dose slices of a view. *)
Definition doseCount (view : string) (this : BNCTPlatform.data) : Z :=
  Z.of_nat (length (default [] (BNCTPlatform.slices this
                                  !! ("dose" +:+ BNCTPlatform.capitalize view)))).

(** The index of a view is one of its slices, or 0 when it has none. *)
Definition indexInRange (view : string) (this : BNCTPlatform.data) : Prop :=
  exists i, BNCTPlatform.doseSliceIndices this !! view = Some i
            /\ 0 <= i <= Z.max 0 (doseCount view this - 1).

(** ** Further concrete folders and states *)

(** A dose folder with decodable slices, listed out of order. *)
Definition doseSlices3 : disk :=
  <["out/axial" := FS.Dir ["b.png"; "a.png"]]>
  (<["out/axial/a.png" := FS.File (FS.Png slice4x4)]>
  (<["out/axial/b.png" := FS.File (FS.Png tinted4x4)]>
  (<["out/coronal" := FS.Dir ["000.png"]]>
  (<["out/coronal/000.png" := FS.File (FS.Png slice4x4)]>
  (<["out/sagittal" := FS.Dir []]> ∅))))).

(** Runs that succeed and say nothing. *)
Definition quietRun (p : string) (d : disk) : disk * result (string * string) :=
  (d, Ok (EmptyString, EmptyString)).

(** An input folder with three numbered files and a note. *)
Definition inputFolder : disk :=
  <["C:/i" := FS.Dir ["10.inp"; "readme.md"; "2.inp"; "1.inp"]]> ∅.

(** A viewer with three axial dose slices, at the first one. *)
Definition threeDoseSlices : BNCTPlatform.data :=
  BNCTPlatform.mkData
    (<["doseAxial" := ["/dosepng/wholebody/axial/000.png"; "/dosepng/wholebody/axial/001.png";
                       "/dosepng/wholebody/axial/002.png"]]>
      (<["doseCoronal" := []]> (<["doseSagittal" := []]> ∅)))
    (<["axial" := 0]> (<["coronal" := 0]> (<["sagittal" := 0]> ∅))).

(** * Proofs *)

(** * Pixels and channels *)

Lemma byteZ_range (c : Byte.byte) : 0 <= Jimp.byteZ c <= 255.
Proof.
  unfold Jimp.byteZ. pose proof (Byte.to_N_bounded c). lia.
Qed.

Lemma byteOfZ_byteZ (c : Byte.byte) : Jimp.byteOfZ (Jimp.byteZ c) = c.
Proof.
  pose proof (byteZ_range c) as Hc. unfold Jimp.byteOfZ.
  rewrite Z.mod_small by lia. unfold Jimp.byteZ.
  rewrite N2Z.id, Byte.of_to_N. reflexivity.
Qed.

Lemma byteZ_byteOfZ (z : Z) : 0 <= z <= 255 -> Jimp.byteZ (Jimp.byteOfZ z) = z.
Proof.
  intros Hz. unfold Jimp.byteOfZ, Jimp.byteZ. rewrite Z.mod_small by lia.
  destruct (Byte.of_N (Z.to_N z)) as [c|] eqn:E.
  - apply Byte.to_of_N in E. lia.
  - pose proof (Byte.to_of_N_option_map (Z.to_N z)) as H. rewrite E in H. simpl in H.
    destruct (N.leb_spec (Z.to_N z) 255); [discriminate | lia].
Qed.

Lemma pack_unpack (r g b a : Z) :
  0 <= r <= 255 -> 0 <= g <= 255 -> 0 <= b <= 255 -> 0 <= a <= 255 ->
  Jimp.intToRGBA (r * 2 ^ 24 + g * 2 ^ 16 + b * 2 ^ 8 + a) = Jimp.mkRGBA r g b a.
Proof.
  intros Hr Hg Hb Ha. unfold Jimp.intToRGBA.
  change (256 ^ 3) with 16777216. change (256 ^ 2) with 65536.
  change (256 ^ 1) with 256. change (256 ^ 0) with 1.
  change (2 ^ 24) with 16777216. change (2 ^ 16) with 65536. change (2 ^ 8) with 256.
  assert (E1 : (r * 16777216 + g * 65536 + b * 256 + a) / 16777216 = r).
  { symmetry. apply (Z.div_unique _ _ r (g * 65536 + b * 256 + a)); lia. }
  rewrite E1.
  assert (E2 : (r * 16777216 + g * 65536 + b * 256 + a - r * 16777216) / 65536 = g).
  { symmetry. apply (Z.div_unique _ _ g (b * 256 + a)); lia. }
  rewrite E2.
  assert (E3 : (r * 16777216 + g * 65536 + b * 256 + a - r * 16777216 - g * 65536) / 256 = b).
  { symmetry. apply (Z.div_unique _ _ b a); lia. }
  rewrite E3. rewrite Z.div_1_r. f_equal. lia.
Qed.

Lemma pixelOf_quad (q : Jimp.quad) :
  pixelOf q = Jimp.mkRGBA (Jimp.byteZ (Jimp.q0 q)) (Jimp.byteZ (Jimp.q1 q))
                          (Jimp.byteZ (Jimp.q2 q)) (Jimp.byteZ (Jimp.q3 q)).
Proof.
  unfold pixelOf, Jimp.readUInt32BE. apply pack_unpack; apply byteZ_range.
Qed.

Lemma pixelOf_red_range (q : Jimp.quad) : 0 <= Jimp.r (pixelOf q) <= 255.
Proof. rewrite pixelOf_quad. simpl. apply byteZ_range. Qed.

Lemma write_packed (r g b a : Z) :
  0 <= r <= 255 -> 0 <= g <= 255 -> 0 <= b <= 255 -> 0 <= a <= 255 ->
  Jimp.writeUInt32BE (r * 256 ^ 3 + g * 256 ^ 2 + b * 256 ^ 1 + a * 256 ^ 0)
  = Ok (Jimp.mkQuad (Jimp.byteOfZ r) (Jimp.byteOfZ g) (Jimp.byteOfZ b) (Jimp.byteOfZ a)).
Proof.
  intros Hr Hg Hb Ha. unfold Jimp.writeUInt32BE.
  change (256 ^ 3) with 16777216. change (256 ^ 2) with 65536.
  change (256 ^ 1) with 256. change (256 ^ 0) with 1. change (2 ^ 32) with 4294967296.
  set (hex := r * 16777216 + g * 65536 + b * 256 + a * 1).
  assert (Hhex : 0 <= hex < 4294967296) by (unfold hex; lia).
  destruct (Z.leb_spec 0 hex); [|lia]. destruct (Z.ltb_spec hex 4294967296); [|lia].
  simpl. unfold Jimp.byteOfZ. rewrite !Z.shiftr_div_pow2 by lia.
  change (2 ^ 24) with 16777216. change (2 ^ 16) with 65536. change (2 ^ 8) with 256.
  assert (M0 : (hex / 16777216) mod 256 = r mod 256).
  { f_equal. symmetry. apply (Z.div_unique _ _ r (g * 65536 + b * 256 + a)); unfold hex; lia. }
  assert (M1 : (hex / 65536) mod 256 = g mod 256).
  { replace (hex / 65536) with (r * 256 + g).
    - rewrite Z.add_comm, Z.mod_add by lia. reflexivity.
    - apply (Z.div_unique _ _ _ (b * 256 + a)); unfold hex; lia. }
  assert (M2 : (hex / 256) mod 256 = b mod 256).
  { replace (hex / 256) with ((r * 65536 + g * 256) + b).
    - replace (r * 65536 + g * 256 + b) with (b + (r * 256 + g) * 256) by lia.
      rewrite Z.mod_add by lia. reflexivity.
    - apply (Z.div_unique _ _ _ a); unfold hex; lia. }
  assert (M3 : hex mod 256 = a mod 256).
  { unfold hex. replace (r * 16777216 + g * 65536 + b * 256 + a * 1)
      with (a + (r * 65536 + g * 256 + b) * 256) by lia.
    rewrite Z.mod_add by lia. reflexivity. }
  rewrite M0, M1, M2, M3. reflexivity.
Qed.

(** * The table index *)

Lemma indexCheck_all : forallb indexCheck (seq 0 256) = true.
Proof. vm_compute. reflexivity. Qed.

Lemma floor_index (pixel : Jimp.RGBA) :
  0 <= Jimp.r pixel <= 255 ->
  JSNumber.floor (JSNumber.mul (normalized pixel) (JSNumber.ofZ 255)) = Some (Jimp.r pixel).
Proof.
  intros Hr. pose proof indexCheck_all as H.
  rewrite forallb_forall in H.
  specialize (H (Z.to_nat (Jimp.r pixel))).
  assert (Hin : In (Z.to_nat (Jimp.r pixel)) (seq 0 256)) by (apply in_seq; lia).
  apply H in Hin. unfold indexCheck, normalized in Hin. simpl in Hin.
  rewrite Z2Nat.id in Hin by lia. unfold normalized.
  destruct (JSNumber.floor _) as [k|]; [|discriminate].
  apply Z.eqb_eq in Hin. congruence.
Qed.

Lemma shadeIndex_256 (colorMap : list Colormap.shade) (pixel : Jimp.RGBA) :
  length colorMap = 256%nat -> 0 <= Jimp.r pixel <= 255 ->
  shadeIndex colorMap pixel = Some (Jimp.r pixel).
Proof.
  intros Hlen Hr. unfold shadeIndex. rewrite Hlen.
  change (Z.of_nat 256 - 1) with 255. apply floor_index, Hr.
Qed.

Lemma tableOk_length (colorMap : list Colormap.shade) :
  tableOk colorMap = true -> length colorMap = 256%nat.
Proof.
  unfold tableOk. intros H. apply andb_true_iff in H as [H _].
  apply Nat.eqb_eq in H. exact H.
Qed.

Lemma channel_ok_range (c : Z) : Jimp.channel_ok c = true -> 0 <= c <= 255.
Proof. unfold Jimp.channel_ok. intros H. apply andb_true_iff in H. lia. Qed.

Lemma tableOk_shade (colorMap : list Colormap.shade) (k : nat) (s : Colormap.shade) :
  tableOk colorMap = true -> colorMap !! k = Some s -> shadeOk s = true.
Proof.
  unfold tableOk. intros H Hk. apply andb_true_iff in H as [_ H].
  rewrite forallb_forall in H. apply H. apply list_elem_of_In.
  eapply list_elem_of_lookup_2, Hk.
Qed.

Lemma element_256 (colorMap : list Colormap.shade) (pixel : Jimp.RGBA) :
  tableOk colorMap = true -> 0 <= Jimp.r pixel <= 255 ->
  element colorMap (shadeIndex colorMap pixel) = Some (shadeOfRed colorMap (Jimp.r pixel))
  /\ shadeOk (shadeOfRed colorMap (Jimp.r pixel)) = true.
Proof.
  intros Hok Hr. pose proof (tableOk_length _ Hok) as Hlen.
  rewrite shadeIndex_256 by assumption. unfold element, shadeOfRed.
  destruct (Z.leb_spec 0 (Jimp.r pixel)); [|lia].
  destruct (colorMap !! Z.to_nat (Jimp.r pixel)) as [s|] eqn:E.
  - split; [reflexivity|]. simpl. eapply tableOk_shade; eassumption.
  - apply lookup_ge_None in E. lia.
Qed.

Lemma rgbaToInt_shade (s : Colormap.shade) :
  shadeOk s = true ->
  exists hex, Jimp.rgbaToInt (Colormap.red s) (Colormap.green s) (Colormap.blue s) 255 = Ok hex
              /\ Jimp.writeUInt32BE hex = Ok (quadOfShade s).
Proof.
  unfold shadeOk. intros H. apply andb_true_iff in H as [H Hb].
  apply andb_true_iff in H as [Hr Hg].
  unfold Jimp.rgbaToInt. rewrite Hr, Hg, Hb. simpl.
  eexists. split; [reflexivity|].
  apply channel_ok_range in Hr, Hg, Hb.
  rewrite write_packed by lia. reflexivity.
Qed.

(** * The first loop *)

Lemma traverse_ok {A B : Type} (f : A -> result B) (g : A -> B) (l : list A) :
  (forall x, In x l -> f x = Ok (g x)) -> traverse f l = Ok (map g l).
Proof.
  induction l as [|x l IH]; intros H; simpl; [reflexivity|].
  rewrite (H x) by (left; reflexivity).
  rewrite IH by (intros y Hy; apply H; right; exact Hy). reflexivity.
Qed.

Lemma map_add_seq (k n s : nat) :
  map (fun x => (k + x)%nat) (seq s n) = seq (k + s) n.
Proof.
  revert s. induction n as [|n IH]; intros s; simpl; [reflexivity|].
  rewrite IH. f_equal. f_equal. lia.
Qed.

Lemma coordinates_row (w n s : nat) :
  map (fun xy => (w * snd xy + fst xy)%nat)
      (flat_map (fun y => map (fun x => (x, y)) (seq 0 w)) (seq s n))
  = seq (w * s) (w * n).
Proof.
  revert s. induction n as [|n IH]; intros s; simpl.
  - rewrite Nat.mul_0_r. reflexivity.
  - rewrite map_app, IH, map_map. simpl.
    replace (w * S n)%nat with (w + w * n)%nat by lia.
    rewrite seq_app. f_equal.
    + rewrite map_add_seq. f_equal. lia.
    + f_equal. lia.
Qed.

Lemma coordinates_index (w h : nat) :
  map (fun xy => (w * snd xy + fst xy)%nat) (coordinates w h) = seq 0 (w * h).
Proof.
  unfold coordinates. rewrite coordinates_row. f_equal. lia.
Qed.

Lemma coordinates_range (w h : nat) (xy : nat * nat) :
  In xy (coordinates w h) -> (fst xy < w)%nat /\ (snd xy < h)%nat.
Proof.
  unfold coordinates. rewrite in_flat_map. intros (y & Hy & Hxy).
  apply in_map_iff in Hxy as (x & <- & Hx). simpl.
  apply in_seq in Hy, Hx. lia.
Qed.

Lemma getPixelIndex_inside (bm : Jimp.Bitmap) (x y : nat) :
  (x < Jimp.width bm)%nat -> (y < Jimp.height bm)%nat ->
  Jimp.getPixelIndex bm x y = Some (Jimp.width bm * y + x)%nat.
Proof.
  intros Hx Hy. unfold Jimp.getPixelIndex.
  destruct (Nat.leb_spec (Jimp.width bm) x); [lia|].
  destruct (Nat.leb_spec (Jimp.height bm) y); [lia|].
  destruct (Nat.ltb_spec x (Jimp.width bm)); [|lia].
  destruct (Nat.ltb_spec y (Jimp.height bm)); [|lia].
  reflexivity.
Qed.

Lemma map_lookup_seq {A B : Type} (F : A -> B) (d : A) (l : list A) :
  map (fun i => F (nth i l d)) (seq 0 (length l)) = map F l.
Proof.
  induction l as [|x l IH]; simpl; [reflexivity|].
  f_equal. rewrite <- seq_shift, map_map. exact IH.
Qed.

Lemma readPixels_wellFormed (bm : Jimp.Bitmap) :
  Jimp.wellFormed bm -> readPixels bm = Ok (map pixelOf (Jimp.data bm)).
Proof.
  intros Hwf. unfold readPixels. unfold Jimp.wellFormed in Hwf.
  set (d := Jimp.mkQuad Byte.x00 Byte.x00 Byte.x00 Byte.x00).
  rewrite (traverse_ok _ (fun xy => pixelOf (nth (Jimp.width bm * snd xy + fst xy) (Jimp.data bm) d))).
  - f_equal.
    rewrite <- (map_map (fun xy => (Jimp.width bm * snd xy + fst xy)%nat)
                        (fun i => pixelOf (nth i (Jimp.data bm) d))).
    rewrite coordinates_index, <- Hwf. apply map_lookup_seq.
  - intros [x y] Hin. apply coordinates_range in Hin as [Hx Hy]. simpl in *.
    unfold Jimp.getPixelColor. rewrite getPixelIndex_inside by assumption.
    assert (Hlt : (Jimp.width bm * y + x < length (Jimp.data bm))%nat) by (rewrite Hwf; nia).
    destruct (Jimp.data bm !! (Jimp.width bm * y + x)%nat) as [q|] eqn:E.
    + simpl. rewrite (nth_lookup_Some _ _ d q E). reflexivity.
    + apply lookup_ge_None in E. lia.
Qed.

(** * The second loop *)

Lemma paintPixels_frame (colorMap : list Colormap.shade) (w : nat) (image : loc)
    (pixels : list Jimp.RGBA) :
  forall (i : nat) (h : heap) (bm : Jimp.Bitmap),
    h !! image = Some bm ->
    paintPixels colorMap w image pixels i h
    = (<[image := fst (paintBitmap colorMap w pixels i bm)]> h,
       snd (paintBitmap colorMap w pixels i bm)).
Proof.
  induction pixels as [|pixel rest IH]; intros i h bm Hbm; simpl.
  - rewrite insert_id by exact Hbm. reflexivity.
  - destruct (element colorMap (shadeIndex colorMap pixel)) as [color|]; simpl;
      [|rewrite insert_id by exact Hbm; reflexivity].
    destruct (Jimp.rgbaToInt _ _ _ 255) as [hex|e]; simpl;
      [|rewrite insert_id by exact Hbm; reflexivity].
    rewrite Hbm.
    destruct (Jimp.setPixelColor bm hex _ _) as [bm'|e]; simpl;
      [|rewrite insert_id by exact Hbm; reflexivity].
    rewrite (IH (S i) (<[image := bm']> h) bm') by apply lookup_insert_eq.
    rewrite insert_insert_eq. reflexivity.
Qed.

Lemma generateHeatmapImage_frame
    (colormap : Colormap.options -> result (list Colormap.shade))
    (h : heap) (image : loc) (bm : Jimp.Bitmap) :
  h !! image = Some bm ->
  generateHeatmapImage colormap h image
  = (<[image := fst (heatBitmap colormap bm)]> h,
     match snd (heatBitmap colormap bm) with
     | Ok _ => Ok image
     | Err e => Err e
     end).
Proof.
  intros Hbm. unfold generateHeatmapImage, heatBitmap. rewrite Hbm.
  destruct (readPixels bm) as [pixels|e]; simpl;
    [|rewrite insert_id by exact Hbm; reflexivity].
  destruct (colormap colormapOptions) as [colorMap|e]; simpl;
    [|rewrite insert_id by exact Hbm; reflexivity].
  rewrite (paintPixels_frame _ _ _ _ _ _ bm Hbm).
  destruct (paintBitmap colorMap (Jimp.width bm) pixels 0 bm) as [bm' [u|e]]; reflexivity.
Qed.

Lemma setPixelColor_inside (bm : Jimp.Bitmap) (i : nat) (s : Colormap.shade) (hex : Z) :
  Jimp.writeUInt32BE hex = Ok (quadOfShade s) ->
  (i < length (Jimp.data bm))%nat ->
  length (Jimp.data bm) = (Jimp.width bm * Jimp.height bm)%nat ->
  Jimp.setPixelColor bm hex (i mod Jimp.width bm)%nat (i / Jimp.width bm)%nat
  = Ok (Jimp.mkBitmap (Jimp.width bm) (Jimp.height bm) (<[i := quadOfShade s]> (Jimp.data bm))).
Proof.
  intros Hw Hi Hlen. unfold Jimp.setPixelColor.
  assert (Hpos : (0 < Jimp.width bm)%nat) by (destruct (Jimp.width bm); simpl in *; lia).
  rewrite getPixelIndex_inside.
  - rewrite Hw. rewrite <- Nat.div_mod_eq.
    destruct (Nat.ltb_spec i (length (Jimp.data bm))); [reflexivity | lia].
  - apply Nat.mod_upper_bound. lia.
  - apply Nat.Div0.div_lt_upper_bound. lia.
Qed.

Lemma paintBitmap_spec (colorMap : list Colormap.shade) (pixels : list Jimp.RGBA) :
  tableOk colorMap = true ->
  Forall (fun p => 0 <= Jimp.r p <= 255) pixels ->
  forall (i : nat) (bm : Jimp.Bitmap),
    length (Jimp.data bm) = (Jimp.width bm * Jimp.height bm)%nat ->
    (i + length pixels <= length (Jimp.data bm))%nat ->
    paintBitmap colorMap (Jimp.width bm) pixels i bm
    = (Jimp.mkBitmap (Jimp.width bm) (Jimp.height bm)
         (take i (Jimp.data bm)
          ++ map (fun p => quadOfShade (shadeOfRed colorMap (Jimp.r p))) pixels
          ++ drop (i + length pixels) (Jimp.data bm)),
       Ok tt).
Proof.
  intros Hok Hall. induction Hall as [|pixel rest Hr Hrest IH]; intros i bm Hlen Hi; simpl.
  - rewrite Nat.add_0_r, take_drop. destruct bm; reflexivity.
  - simpl in Hi. destruct (element_256 colorMap pixel Hok Hr) as [-> Hs].
    destruct (rgbaToInt_shade _ Hs) as (hex & -> & Hw).
    rewrite (setPixelColor_inside bm i _ hex Hw) by lia.
    set (bm' := Jimp.mkBitmap _ _ _).
    change (Jimp.width bm) with (Jimp.width bm') at 1.
    rewrite IH; unfold bm'; simpl; rewrite ?length_insert; try lia.
    f_equal. f_equal.
    rewrite (take_S_r _ i (quadOfShade (shadeOfRed colorMap (Jimp.r pixel))))
      by (apply list_lookup_insert_eq; lia).
    rewrite take_insert_ge by lia.
    rewrite drop_insert_lt by lia.
    rewrite <- app_assoc. simpl.
    replace (i + S (length rest))%nat with (S (i + length rest)) by lia. reflexivity.
Qed.

Lemma heatQuad_pixelOf (colorMap : list Colormap.shade) (q : Jimp.quad) :
  quadOfShade (shadeOfRed colorMap (Jimp.r (pixelOf q))) = heatQuad colorMap q.
Proof. rewrite pixelOf_quad. reflexivity. Qed.

Lemma heatBitmap_wellFormed
    (colormap : Colormap.options -> result (list Colormap.shade))
    (colorMap : list Colormap.shade) (bm : Jimp.Bitmap) :
  colormap colormapOptions = Ok colorMap -> tableOk colorMap = true ->
  Jimp.wellFormed bm ->
  heatBitmap colormap bm = (heatmap colorMap bm, Ok tt).
Proof.
  intros Hcm Hok Hwf. unfold heatBitmap.
  rewrite (readPixels_wellFormed bm Hwf), Hcm.
  rewrite paintBitmap_spec.
  - unfold heatmap. f_equal. f_equal. simpl.
    rewrite length_map, drop_all, app_nil_r, map_map.
    apply map_ext. intros q. apply heatQuad_pixelOf.
  - exact Hok.
  - apply Forall_forall. intros p Hp. apply list_elem_of_In, in_map_iff in Hp as (q & <- & _).
    apply pixelOf_red_range.
  - exact Hwf.
  - rewrite length_map. simpl. lia.
Qed.

(** The call on a decoded image: the image object holds its heatmap
    afterwards, and the call returns that object. *)
Lemma generateHeatmapImage_heatmap
    (colormap : Colormap.options -> result (list Colormap.shade))
    (colorMap : list Colormap.shade) (h : heap) (image : loc) (bm : Jimp.Bitmap) :
  colormap colormapOptions = Ok colorMap -> tableOk colorMap = true ->
  h !! image = Some bm -> Jimp.wellFormed bm ->
  generateHeatmapImage colormap h image = (<[image := heatmap colorMap bm]> h, Ok image).
Proof.
  intros Hcm Hok Hbm Hwf.
  rewrite (generateHeatmapImage_frame _ _ _ _ Hbm).
  rewrite (heatBitmap_wellFormed _ _ _ Hcm Hok Hwf). reflexivity.
Qed.

(** * The table of the scale [hot] *)

Lemma package_hot : Colormap.package colormapOptions = Ok hot256.
Proof. vm_compute. reflexivity. Qed.

Lemma hot256_ok : tableOk hot256 = true.
Proof. vm_compute. reflexivity. Qed.

Lemma slice4x4_wellFormed : Jimp.wellFormed slice4x4.
Proof. reflexivity. Qed.

(** * [generateHeatmapImage] on decoded images *)

Section Heatmap.

Variable colormap : Colormap.options -> result (list Colormap.shade).
Variable colorMap : list Colormap.shade.
Hypothesis colormap_hot : colormap colormapOptions = Ok colorMap.
Hypothesis colorMap_ok : tableOk colorMap = true.

(** C9: for every pixel the first loop reads, the index
    [floor((r / 255) * (nshades - 1))] is an integer of [0, 255] and the
    lookup in the 256 entries of the table finds a colour; the call succeeds
    and every pixel it has written has alpha 255. *)
Theorem C9_index_in_bounds_and_opaque (h : heap) (image : loc) (bm : Jimp.Bitmap) :
  h !! image = Some bm -> Jimp.wellFormed bm ->
  length colorMap = 256%nat
  /\ (exists pixels, readPixels bm = Ok pixels
        /\ Forall (fun pixel =>
                     0 <= Jimp.r pixel <= 255
                     /\ exists k, shadeIndex colorMap pixel = Some k
                                  /\ 0 <= k <= 255
                                  /\ is_Some (element colorMap (Some k))) pixels)
  /\ (exists h' out, generateHeatmapImage colormap h image = (h', Ok image)
        /\ h' !! image = Some out
        /\ length (Jimp.data out) = length (Jimp.data bm)
        /\ Forall (fun q => Jimp.a (pixelOf q) = 255) (Jimp.data out)).
Proof.
  intros Hbm Hwf. split; [apply tableOk_length, colorMap_ok|]. split.
  - exists (map pixelOf (Jimp.data bm)). split; [apply readPixels_wellFormed, Hwf|].
    apply Forall_forall. intros p Hp.
    apply list_elem_of_In, in_map_iff in Hp as (q & <- & _).
    pose proof (pixelOf_red_range q) as Hr. split; [exact Hr|].
    exists (Jimp.r (pixelOf q)). split; [|split; [exact Hr|]].
    + apply shadeIndex_256; [apply tableOk_length, colorMap_ok | exact Hr].
    + destruct (element_256 colorMap (pixelOf q) colorMap_ok Hr) as [E _].
      rewrite shadeIndex_256 in E by (try apply tableOk_length; assumption).
      rewrite E. eexists. reflexivity.
  - exists (<[image := heatmap colorMap bm]> h), (heatmap colorMap bm).
    split; [apply generateHeatmapImage_heatmap; assumption|].
    split; [apply lookup_insert_eq|]. split; [simpl; apply length_map|].
    unfold heatmap. cbn [Jimp.data]. apply Forall_forall. intros q Hq.
    apply list_elem_of_In, in_map_iff in Hq as (q' & <- & _).
    cbv beta. rewrite pixelOf_quad. simpl. apply byteZ_byteOfZ. lia.
Qed.

(** C10: two images of equal dimensions that agree on the red channel of
    every pixel get the same heatmap, whatever their green, blue and alpha
    channels are. *)
Theorem C10_only_red_channel (h1 h2 : heap) (image1 image2 : loc) (bm1 bm2 : Jimp.Bitmap) :
  h1 !! image1 = Some bm1 -> h2 !! image2 = Some bm2 ->
  Jimp.wellFormed bm1 -> Jimp.wellFormed bm2 ->
  Jimp.width bm1 = Jimp.width bm2 -> Jimp.height bm1 = Jimp.height bm2 ->
  map (fun q => Jimp.r (pixelOf q)) (Jimp.data bm1)
  = map (fun q => Jimp.r (pixelOf q)) (Jimp.data bm2) ->
  exists h1' h2' out,
    generateHeatmapImage colormap h1 image1 = (h1', Ok image1)
    /\ generateHeatmapImage colormap h2 image2 = (h2', Ok image2)
    /\ h1' !! image1 = Some out /\ h2' !! image2 = Some out.
Proof.
  intros Hbm1 Hbm2 Hwf1 Hwf2 Hw Hh Hred.
  exists (<[image1 := heatmap colorMap bm1]> h1), (<[image2 := heatmap colorMap bm2]> h2),
         (heatmap colorMap bm1).
  split; [apply generateHeatmapImage_heatmap; assumption|].
  split; [apply generateHeatmapImage_heatmap; assumption|].
  split; [apply lookup_insert_eq|].
  rewrite lookup_insert_eq. f_equal. unfold heatmap. rewrite Hw, Hh. f_equal.
  assert (E : forall l, map (heatQuad colorMap) l
              = map (fun r => quadOfShade (shadeOfRed colorMap r))
                    (map (fun q => Jimp.r (pixelOf q)) l)).
  { intros l. rewrite map_map. apply map_ext. intros q. symmetry. apply heatQuad_pixelOf. }
  rewrite !E, Hred. reflexivity.
Qed.

(** C7 as the code has it: the call overwrites the bitmap of the image
    object it is given by its heatmap, of the same width and height, and
    returns that same object; every other object of the heap is left as it
    was. *)
Theorem C7_in_place (h : heap) (image : loc) (bm : Jimp.Bitmap) :
  h !! image = Some bm -> Jimp.wellFormed bm ->
  exists h', generateHeatmapImage colormap h image = (h', Ok image)
    /\ h' !! image = Some (heatmap colorMap bm)
    /\ Jimp.width (heatmap colorMap bm) = Jimp.width bm
    /\ Jimp.height (heatmap colorMap bm) = Jimp.height bm
    /\ forall other, other <> image -> h' !! other = h !! other.
Proof.
  intros Hbm Hwf. exists (<[image := heatmap colorMap bm]> h).
  split; [apply generateHeatmapImage_heatmap; assumption|].
  split; [apply lookup_insert_eq|]. split; [reflexivity|]. split; [reflexivity|].
  intros other Hne. apply lookup_insert_ne. congruence.
Qed.

End Heatmap.

Lemma C9_index_in_bounds_and_opaque_witness :
  length hot256 = 256%nat
  /\ (exists pixels, readPixels slice4x4 = Ok pixels
        /\ Forall (fun pixel =>
                     0 <= Jimp.r pixel <= 255
                     /\ exists k, shadeIndex hot256 pixel = Some k
                                  /\ 0 <= k <= 255
                                  /\ is_Some (element hot256 (Some k))) pixels)
  /\ (exists h' out,
        generateHeatmapImage Colormap.package {[ 1%positive := slice4x4 ]} 1%positive
        = (h', Ok 1%positive)
        /\ h' !! 1%positive = Some out
        /\ length (Jimp.data out) = length (Jimp.data slice4x4)
        /\ Forall (fun q => Jimp.a (pixelOf q) = 255) (Jimp.data out)).
Proof.
  apply (C9_index_in_bounds_and_opaque Colormap.package hot256 package_hot hot256_ok
           {[ 1%positive := slice4x4 ]} 1%positive slice4x4).
  - reflexivity.
  - reflexivity.
Defined.

Lemma normalizedCheck_all : forallb normalizedCheck (seq 0 256) = true.
Proof. vm_compute. reflexivity. Qed.

Lemma normalized_fixed_range (pixel : Jimp.RGBA) :
  0 <= Jimp.r pixel <= 255 ->
  normalized pixel
  = specNormalized (JSNumber.ofZ (Jimp.r pixel)) (JSNumber.ofZ 0) (JSNumber.ofZ 255)
  /\ JSNumber.leb (JSNumber.ofZ 0) (normalized pixel) = true
  /\ JSNumber.leb (normalized pixel) (JSNumber.ofZ 1) = true.
Proof.
  intros Hr. pose proof normalizedCheck_all as H. rewrite forallb_forall in H.
  specialize (H (Z.to_nat (Jimp.r pixel))).
  assert (Hin : In (Z.to_nat (Jimp.r pixel)) (seq 0 256)) by (apply in_seq; lia).
  apply H in Hin. unfold normalizedCheck in Hin.
  assert (En : normalized (Jimp.mkRGBA (Z.of_nat (Z.to_nat (Jimp.r pixel))) 0 0 0)
               = normalized pixel).
  { unfold normalized. simpl. rewrite Z2Nat.id by lia. reflexivity. }
  rewrite En in Hin. rewrite Z2Nat.id in Hin by lia.
  apply andb_true_iff in Hin as [Hin H1]. apply andb_true_iff in Hin as [Hin H0].
  split; [|split; assumption].
  destruct (specNormalized _ _ _) as [s| | |s m e], (normalized pixel) as [s'| | |s' m' e'];
    try discriminate.
  - apply Bool.eqb_prop in Hin. congruence.
  - apply andb_true_iff in Hin as [Hin He]. apply andb_true_iff in Hin as [Hs Hm].
    apply Bool.eqb_prop in Hs. apply Pos.eqb_eq in Hm. apply Z.eqb_eq in He. congruence.
Qed.

Lemma heatmap_slice4x4 (colorMap : list Colormap.shade) :
  length colorMap = 256%nat ->
  Jimp.data (heatmap colorMap slice4x4) = map quadOfShade (take 16 colorMap)
  /\ map quadOfShade (take 16 colorMap) !! 0%nat = quadOfShade <$> head colorMap
  /\ map quadOfShade (take 16 colorMap) !! 15%nat = quadOfShade <$> colorMap !! 15%nat.
Proof.
  intros Hlen. do 16 (destruct colorMap as [|? colorMap]; [discriminate|]).
  repeat split; reflexivity.
Qed.

Section Mapping.

Variable colormap : Colormap.options -> result (list Colormap.shade).

(** C5: the outcome of a call is a function of the pixel data of its
    argument: calls on image objects with identical data leave identical
    data behind (and throw or return alike); and in all frames, at all
    positions, pixels of the same value get the same colour. *)
Theorem C5_deterministic (h1 h2 : heap) (image1 image2 : loc) (bm1 bm2 : Jimp.Bitmap) :
  h1 !! image1 = Some bm1 -> h2 !! image2 = Some bm2 ->
  (bm1 = bm2 ->
   fst (generateHeatmapImage colormap h1 image1) !! image1
   = fst (generateHeatmapImage colormap h2 image2) !! image2
   /\ isOk (snd (generateHeatmapImage colormap h1 image1))
      = isOk (snd (generateHeatmapImage colormap h2 image2)))
  /\ (forall colorMap, colormap colormapOptions = Ok colorMap -> tableOk colorMap = true ->
      Jimp.wellFormed bm1 -> Jimp.wellFormed bm2 ->
      forall (i j : nat) (q1 q2 : Jimp.quad),
        Jimp.data bm1 !! i = Some q1 -> Jimp.data bm2 !! j = Some q2 ->
        Jimp.r (pixelOf q1) = Jimp.r (pixelOf q2) ->
        exists out1 out2 q,
          fst (generateHeatmapImage colormap h1 image1) !! image1 = Some out1
          /\ fst (generateHeatmapImage colormap h2 image2) !! image2 = Some out2
          /\ Jimp.data out1 !! i = Some q /\ Jimp.data out2 !! j = Some q).
Proof.
  intros Hbm1 Hbm2. split.
  - intros <-.
    rewrite (generateHeatmapImage_frame _ _ _ _ Hbm1), (generateHeatmapImage_frame _ _ _ _ Hbm2).
    simpl. rewrite !lookup_insert_eq. split; [reflexivity|].
    destruct (snd (heatBitmap colormap bm1)); reflexivity.
  - intros colorMap Hcm Hok Hwf1 Hwf2 i j q1 q2 Hq1 Hq2 Hred.
    rewrite (generateHeatmapImage_heatmap _ _ _ _ _ Hcm Hok Hbm1 Hwf1).
    rewrite (generateHeatmapImage_heatmap _ _ _ _ _ Hcm Hok Hbm2 Hwf2).
    exists (heatmap colorMap bm1), (heatmap colorMap bm2), (heatQuad colorMap q1).
    simpl. rewrite !lookup_insert_eq. split; [reflexivity|]. split; [reflexivity|].
    rewrite !list_lookup_fmap, Hq1, Hq2. simpl. split; [reflexivity|].
    rewrite <- !heatQuad_pixelOf, Hred. reflexivity.
Qed.

Variable colorMap : list Colormap.shade.
Hypothesis colormap_hot : colormap colormapOptions = Ok colorMap.
Hypothesis colorMap_ok : tableOk colorMap = true.

(** C1 as the code has it: the normalised value of a pixel is its 8-bit red
    channel over 255, that is the clamped linear normalisation over the
    fixed range [0, 255]; it lies in [0, 1]; no range is passed to the call,
    so no range is empty, and the call does not throw. *)
Theorem C1_fixed_range (h : heap) (image : loc) (bm : Jimp.Bitmap) :
  h !! image = Some bm -> Jimp.wellFormed bm ->
  (exists pixels, readPixels bm = Ok pixels
     /\ Forall (fun pixel =>
                  normalized pixel
                  = specNormalized (JSNumber.ofZ (Jimp.r pixel)) (JSNumber.ofZ 0) (JSNumber.ofZ 255)
                  /\ JSNumber.leb (JSNumber.ofZ 0) (normalized pixel) = true
                  /\ JSNumber.leb (normalized pixel) (JSNumber.ofZ 1) = true) pixels)
  /\ exists h', generateHeatmapImage colormap h image = (h', Ok image).
Proof.
  intros Hbm Hwf. split.
  - exists (map pixelOf (Jimp.data bm)). split; [apply readPixels_wellFormed, Hwf|].
    apply Forall_forall. intros p Hp.
    apply list_elem_of_In, in_map_iff in Hp as (q & <- & _).
    apply normalized_fixed_range, pixelOf_red_range.
  - eexists. apply generateHeatmapImage_heatmap; eassumption.
Qed.

Lemma heatmap_lookup (bm : Jimp.Bitmap) (i : nat) (q : Jimp.quad) :
  Jimp.data bm !! i = Some q ->
  Jimp.data (heatmap colorMap bm) !! i
  = Some (quadOfShade (shadeOfRed colorMap (Jimp.r (pixelOf q)))).
Proof.
  intros Hq. unfold heatmap. cbn [Jimp.data].
  rewrite list_lookup_fmap, Hq, heatQuad_pixelOf. reflexivity.
Qed.

(** C3 as the code has it: in the frame of the 4x4 slice holding 0, ..., 15
    the pixel holding [k] gets entry [k] of the table, so the pixel holding
    0 gets the first stop and the pixel holding 15 the sixteenth entry; in
    every frame a pixel holding 0 gets the first stop and a pixel holding
    255, the top of the fixed range, the last stop. *)
Theorem C3_stops :
  (exists h' out,
     generateHeatmapImage colormap {[ 1%positive := slice4x4 ]} 1%positive = (h', Ok 1%positive)
     /\ h' !! 1%positive = Some out
     /\ Jimp.data out = map quadOfShade (take 16 colorMap)
     /\ Jimp.data out !! 0%nat = quadOfShade <$> head colorMap
     /\ Jimp.data out !! 15%nat = quadOfShade <$> colorMap !! 15%nat)
  /\ (forall (h : heap) (image : loc) (bm : Jimp.Bitmap) (i : nat) (q : Jimp.quad),
        h !! image = Some bm -> Jimp.wellFormed bm -> Jimp.data bm !! i = Some q ->
        exists h' out,
          generateHeatmapImage colormap h image = (h', Ok image)
          /\ h' !! image = Some out
          /\ (Jimp.r (pixelOf q) = 0 -> Jimp.data out !! i = quadOfShade <$> head colorMap)
          /\ (Jimp.r (pixelOf q) = 255 -> Jimp.data out !! i = quadOfShade <$> last colorMap)).
Proof.
  pose proof (tableOk_length _ colorMap_ok) as Hlen.
  destruct (heatmap_slice4x4 colorMap Hlen) as (E16 & E0 & E15).
  split.
  - exists (<[1%positive := heatmap colorMap slice4x4]> {[ 1%positive := slice4x4 ]}),
           (heatmap colorMap slice4x4).
    split; [apply generateHeatmapImage_heatmap;
            [assumption | assumption | apply lookup_singleton_eq | reflexivity]|].
    split; [apply lookup_insert_eq|]. split; [exact E16|].
    rewrite E16. split; assumption.
  - intros h image bm i q Hbm Hwf Hq.
    exists (<[image := heatmap colorMap bm]> h), (heatmap colorMap bm).
    split; [apply generateHeatmapImage_heatmap; assumption|].
    split; [apply lookup_insert_eq|].
    rewrite (heatmap_lookup _ _ _ Hq). split; intros ->; unfold shadeOfRed.
    + rewrite head_lookup. change (Z.to_nat 0) with 0%nat.
      destruct (colorMap !! 0%nat) eqn:E; [reflexivity|].
      apply lookup_ge_None in E. lia.
    + rewrite last_lookup, Hlen. change (Z.to_nat 255) with 255%nat.
      change (Nat.pred 256) with 255%nat.
      destruct (colorMap !! 255%nat) eqn:E; [reflexivity|].
      apply lookup_ge_None in E. lia.
Qed.

(** C4 as the code has it: the function has the image as its only
    parameter and always asks the package for the scale [hot]; a colour
    scale name passed along is dropped, whatever it is, and the call returns
    the heatmap of the scale [hot] without throwing. *)
Theorem C4_name_ignored (name : string) (h : heap) (image : loc) (bm : Jimp.Bitmap) :
  h !! image = Some bm -> Jimp.wellFormed bm ->
  Colormap.colormap colormapOptions = "hot"
  /\ call_generateHeatmapImage colormap [VImage image; VString name] h
     = generateHeatmapImage colormap h image
  /\ exists h', call_generateHeatmapImage colormap [VImage image; VString name] h
                = (h', Ok image)
                /\ h' !! image = Some (heatmap colorMap bm).
Proof.
  intros Hbm Hwf. split; [reflexivity|]. split; [reflexivity|].
  exists (<[image := heatmap colorMap bm]> h). simpl.
  split; [apply generateHeatmapImage_heatmap; assumption | apply lookup_insert_eq].
Qed.

End Mapping.

Lemma C10_only_red_channel_witness :
  map (fun q => Jimp.r (pixelOf q)) (Jimp.data slice4x4)
  = map (fun q => Jimp.r (pixelOf q)) (Jimp.data tinted4x4)
  /\ exists h1' h2' out,
       generateHeatmapImage Colormap.package {[ 1%positive := slice4x4 ]} 1%positive
       = (h1', Ok 1%positive)
       /\ generateHeatmapImage Colormap.package {[ 2%positive := tinted4x4 ]} 2%positive
          = (h2', Ok 2%positive)
       /\ h1' !! 1%positive = Some out /\ h2' !! 2%positive = Some out.
Proof.
  split; [vm_compute; reflexivity|].
  apply (C10_only_red_channel Colormap.package hot256 package_hot hot256_ok
           {[ 1%positive := slice4x4 ]} {[ 2%positive := tinted4x4 ]}
           1%positive 2%positive slice4x4 tinted4x4);
    reflexivity.
Defined.

Lemma C7_in_place_witness :
  exists h',
    generateHeatmapImage Colormap.package {[ 1%positive := slice4x4 ]} 1%positive
    = (h', Ok 1%positive)
    /\ h' !! 1%positive = Some (heatmap hot256 slice4x4)
    /\ Jimp.width (heatmap hot256 slice4x4) = Jimp.width slice4x4
    /\ Jimp.height (heatmap hot256 slice4x4) = Jimp.height slice4x4
    /\ forall other, other <> 1%positive ->
         h' !! other = ({[ 1%positive := slice4x4 ]} : heap) !! other.
Proof.
  apply (C7_in_place Colormap.package hot256 package_hot hot256_ok
           {[ 1%positive := slice4x4 ]} 1%positive slice4x4); reflexivity.
Defined.

(** C7, refuted as stated: the call on an image object returns that very
    object, and the pixel data of the object is no longer what it was. *)
Lemma C7_counterexample :
  exists h',
    generateHeatmapImage Colormap.package {[ 1%positive := slice4x4 ]} 1%positive
    = (h', Ok 1%positive)
    /\ Jimp.data <$> h' !! 1%positive
       <> Jimp.data <$> ({[ 1%positive := slice4x4 ]} : heap) !! 1%positive.
Proof.
  exists (<[1%positive := heatmap hot256 slice4x4]> {[ 1%positive := slice4x4 ]}).
  split.
  - apply (generateHeatmapImage_heatmap _ _ _ _ _ package_hot hot256_ok); reflexivity.
  - rewrite lookup_insert_eq, lookup_singleton_eq. vm_compute. discriminate.
Qed.

Lemma C5_deterministic_witness :
  (fst (generateHeatmapImage Colormap.package {[ 1%positive := slice4x4 ]} 1%positive) !! 1%positive
   = fst (generateHeatmapImage Colormap.package {[ 2%positive := slice4x4 ]} 2%positive) !! 2%positive
   /\ isOk (snd (generateHeatmapImage Colormap.package {[ 1%positive := slice4x4 ]} 1%positive))
      = isOk (snd (generateHeatmapImage Colormap.package {[ 2%positive := slice4x4 ]} 2%positive)))
  /\ (exists out1 out2 q,
        fst (generateHeatmapImage Colormap.package {[ 1%positive := slice4x4 ]} 1%positive)
          !! 1%positive = Some out1
        /\ fst (generateHeatmapImage Colormap.package {[ 2%positive := tinted4x4 ]} 2%positive)
             !! 2%positive = Some out2
        /\ Jimp.data out1 !! 5%nat = Some q /\ Jimp.data out2 !! 5%nat = Some q).
Proof.
  split.
  - apply (C5_deterministic Colormap.package {[ 1%positive := slice4x4 ]}
             {[ 2%positive := slice4x4 ]} 1%positive 2%positive slice4x4 slice4x4);
      reflexivity.
  - destruct (C5_deterministic Colormap.package {[ 1%positive := slice4x4 ]}
                {[ 2%positive := tinted4x4 ]} 1%positive 2%positive slice4x4 tinted4x4)
      as [_ Hsame]; [reflexivity | reflexivity |].
    apply (Hsame hot256 package_hot hot256_ok) with
      (q1 := grayQuad 5)
      (q2 := Jimp.mkQuad (Jimp.byteOfZ 5) Byte.x00 Byte.xff Byte.x07);
      reflexivity.
Defined.

Lemma C1_fixed_range_witness :
  (exists pixels, readPixels slice4x4 = Ok pixels
     /\ Forall (fun pixel =>
                  normalized pixel
                  = specNormalized (JSNumber.ofZ (Jimp.r pixel)) (JSNumber.ofZ 0) (JSNumber.ofZ 255)
                  /\ JSNumber.leb (JSNumber.ofZ 0) (normalized pixel) = true
                  /\ JSNumber.leb (normalized pixel) (JSNumber.ofZ 1) = true) pixels)
  /\ exists h',
       generateHeatmapImage Colormap.package {[ 1%positive := slice4x4 ]} 1%positive
       = (h', Ok 1%positive).
Proof.
  apply (C1_fixed_range Colormap.package hot256 package_hot hot256_ok
           {[ 1%positive := slice4x4 ]} 1%positive slice4x4); reflexivity.
Defined.

(** C1, refuted as stated: over the range [0, 100] the value 100 is not
    normalised to the clamped quotient (which is 1), and over the empty
    range [255, 255] the value 255 is not normalised to 0: no range reaches
    the computation. *)
Lemma C1_counterexample :
  normalized (Jimp.mkRGBA 100 100 100 255)
  <> specNormalized (JSNumber.ofZ 100) (JSNumber.ofZ 0) (JSNumber.ofZ 100)
  /\ normalized (Jimp.mkRGBA 255 255 255 255)
     <> specNormalized (JSNumber.ofZ 255) (JSNumber.ofZ 255) (JSNumber.ofZ 255).
Proof. split; vm_compute; discriminate. Qed.

Lemma C3_stops_witness :
  exists h' out,
    generateHeatmapImage Colormap.package {[ 1%positive := slice4x4 ]} 1%positive
    = (h', Ok 1%positive)
    /\ h' !! 1%positive = Some out
    /\ Jimp.data out = map quadOfShade (take 16 hot256)
    /\ Jimp.data out !! 0%nat = quadOfShade <$> head hot256
    /\ Jimp.data out !! 15%nat = quadOfShade <$> hot256 !! 15%nat.
Proof.
  apply (C3_stops Colormap.package hot256 package_hot hot256_ok).
Defined.

(** C3, refuted as stated: in the frame of the 4x4 slice of the scale
    [hot], the pixel holding the maximum 15 is the dark red (45, 0, 0), the
    sixteenth entry of the table, and not the last stop, white. *)
Lemma C3_counterexample :
  exists h' out,
    generateHeatmapImage Colormap.package {[ 1%positive := slice4x4 ]} 1%positive
    = (h', Ok 1%positive)
    /\ h' !! 1%positive = Some out
    /\ Jimp.data slice4x4 !! 15%nat = Some (grayQuad 15)
    /\ Jimp.data out !! 15%nat = Some (quadOfShade (Colormap.mkShade 45 0 0))
    /\ last hot256 = Some (Colormap.mkShade 255 255 255)
    /\ Jimp.data out !! 15%nat <> quadOfShade <$> last hot256.
Proof.
  exists (<[1%positive := heatmap hot256 slice4x4]> {[ 1%positive := slice4x4 ]}),
         (heatmap hot256 slice4x4).
  split.
  { apply (generateHeatmapImage_heatmap _ _ _ _ _ package_hot hot256_ok); reflexivity. }
  split; [apply lookup_insert_eq|].
  split; [reflexivity|].
  split; [vm_compute; reflexivity|].
  split; [vm_compute; reflexivity|].
  vm_compute. discriminate.
Qed.

Lemma C4_name_ignored_witness :
  call_generateHeatmapImage Colormap.package [VImage 1%positive; VString "jet"]
    {[ 1%positive := slice4x4 ]}
  = generateHeatmapImage Colormap.package {[ 1%positive := slice4x4 ]} 1%positive.
Proof.
  apply (C4_name_ignored Colormap.package hot256 package_hot hot256_ok "jet"
           {[ 1%positive := slice4x4 ]} 1%positive slice4x4); reflexivity.
Defined.

(** C4, refuted as stated: called with a name that no colour scale has, the
    function does not throw; it returns the image, recoloured with [hot]. *)
Lemma C4_counterexample :
  exists h',
    call_generateHeatmapImage Colormap.package
      [VImage 1%positive; VString "no-such-colormap"] {[ 1%positive := slice4x4 ]}
    = (h', Ok 1%positive)
    /\ h' !! 1%positive = Some (heatmap hot256 slice4x4).
Proof.
  exists (<[1%positive := heatmap hot256 slice4x4]> {[ 1%positive := slice4x4 ]}).
  split; [|apply lookup_insert_eq]. simpl.
  apply (generateHeatmapImage_heatmap _ _ _ _ _ package_hot hot256_ok); reflexivity.
Qed.

(** * The pass over the files *)

Lemma join_inj (folder f1 f2 : string) : join folder f1 = join folder f2 -> f1 = f2.
Proof.
  unfold join. intros H. apply String.app_inj in H. apply String.app_inj in H. exact H.
Qed.

Section Pass.

Variable colormap : Colormap.options -> result (list Colormap.shade).
Variable colorMap : list Colormap.shade.
Hypothesis colormap_hot : colormap colormapOptions = Ok colorMap.
Hypothesis colorMap_ok : tableOk colorMap = true.

Lemma heatFiles_cons (folder file : string) (rest : list string) (d : disk) (bm : Jimp.Bitmap) :
  d !! join folder file = Some (FS.File (FS.Png bm)) -> Jimp.wellFormed bm ->
  heatFiles colormap folder (file :: rest) d
  = match heatFiles colormap folder rest
            (writeAsync d (join folder file) (heatmap colorMap bm)) with
    | (d', Err e) => (d', Err e)
    | (d', Ok paths) => (d', Ok (join folder file :: paths))
    end.
Proof.
  intros Hd Hwf. cbn [heatFiles]. unfold Jimp_read. rewrite Hd.
  rewrite (generateHeatmapImage_heatmap colormap colorMap _ _ bm colormap_hot colorMap_ok)
    by (try apply lookup_singleton_eq; assumption).
  rewrite lookup_insert_eq. reflexivity.
Qed.


Lemma overwritten_step (folder file : string) (files : list string) (d : disk) :
  overwritten colorMap folder (file :: files) d
  = overwritten colorMap folder files
      match Jimp_read d (join folder file) with
      | Ok bm => writeAsync d (join folder file) (heatmap colorMap bm)
      | Err _ => d
      end.
Proof. reflexivity. Qed.

Lemma overwritten_cons (folder file : string) (files : list string) (d : disk) (bm : Jimp.Bitmap) :
  d !! join folder file = Some (FS.File (FS.Png bm)) ->
  overwritten colorMap folder (file :: files) d
  = overwritten colorMap folder files (writeAsync d (join folder file) (heatmap colorMap bm)).
Proof.
  intros Hd. rewrite overwritten_step. unfold Jimp_read. rewrite Hd. reflexivity.
Qed.

Lemma overwritten_other (folder : string) (files : list string) :
  forall (d : disk) (p : string),
    (forall f, f ∈ files -> p <> join folder f) ->
    overwritten colorMap folder files d !! p = d !! p.
Proof.
  induction files as [|file files IH]; intros d p Hp; [reflexivity|].
  rewrite overwritten_step.
  rewrite IH by (intros f Hf; apply Hp; right; exact Hf).
  destruct (Jimp_read d (join folder file)); [|reflexivity].
  unfold writeAsync. apply lookup_insert_ne. intros E. apply (Hp file); [left|]; congruence.
Qed.

Lemma overwritten_file (folder : string) (files : list string) :
  NoDup files ->
  forall (d : disk) (f : string) (bm : Jimp.Bitmap),
    f ∈ files -> d !! join folder f = Some (FS.File (FS.Png bm)) ->
    overwritten colorMap folder files d !! join folder f
    = Some (FS.File (FS.Png (heatmap colorMap bm))).
Proof.
  induction 1 as [|file files Hnotin Hnodup IH]; intros d f bm Hf Hd.
  - inversion Hf.
  - apply elem_of_cons in Hf as [->|Hf].
    + rewrite (overwritten_cons _ _ _ _ _ Hd).
      rewrite overwritten_other.
      * apply lookup_insert_eq.
      * intros f' Hf' E. apply join_inj in E. subst f'. contradiction.
    + assert (Hne : f <> file) by (intros ->; contradiction).
      rewrite overwritten_step.
      apply IH; [exact Hf|].
      destruct (Jimp_read d (join folder file)); [|exact Hd].
      unfold writeAsync. rewrite lookup_insert_ne; [exact Hd|].
      intros E. apply join_inj in E. congruence.
Qed.


End Pass.

(** * Empty slice sets *)

Lemma readdir_dir (d : disk) (p : string) (entries : list string) :
  d !! p = Some (FS.Dir entries) -> readdir d p = Ok entries /\ existsSync d p = true.
Proof. intros H. unfold readdir, existsSync. rewrite H. split; reflexivity. Qed.

Section ZeroSlices.

Variable colormap : Colormap.options -> result (list Colormap.shade).
Variable python : list string -> disk -> disk * result unit.
Variable dirname : string.

(** C6 as the code has it: when the scripts succeed and leave the three
    view folders empty, [processDoseDataFile] returns three empty sequences
    and the listing of [/upload-nii] answers with empty sequences and zero
    counts, but the handlers of [/process-npy] and of
    [/generate-wholebody-dose-map] take a result without slices for a
    failure and answer with status 500. *)
Theorem C6_zero_slices (npyPath baseName outputDir niiRefPath uploadFolder : string)
    (d d1 d2 : disk) :
  python [join dirname "resample_npy_to_nii.py"; npyPath; niiRefPath; replaceNpySuffix npyPath] d
  = (d1, Ok tt) ->
  python [join dirname "nii_preview.py"; replaceNpySuffix npyPath; outputDir] d1 = (d2, Ok tt) ->
  (forall view, view ∈ views -> d2 !! join outputDir view = Some (FS.Dir [])) ->
  processDoseDataFile colormap python dirname npyPath outputDir niiRefPath d
  = (d2, Ok (<["sagittal" := []]> (<["coronal" := []]> (<["axial" := []]> ∅))))
  /\ processNpy colormap python dirname npyPath baseName outputDir niiRefPath d
     = (d2, Json500 "NPY剂量图像生成失败" (Error "未生成任何剂量图像"))
  /\ wholebodyDoseMapListing outputDir d2
     = Json500 "全身剂量分布图生成失败"
               (Error "未生成任何剂量切片，请检查dose_to_png.py的执行日志")
  /\ uploadNiiListing uploadFolder outputDir d2
     = Json200 (mkUploadSlices
                  (<["axial" := []]> (<["coronal" := []]> (<["sagittal" := []]> ∅)))
                  (<["axial" := 0%nat]> (<["coronal" := 0%nat]> (<["sagittal" := 0%nat]> ∅)))).
Proof.
  intros Hresample Hpreview Hempty.
  destruct (readdir_dir _ _ _ (Hempty "axial" ltac:(unfold views; set_solver))) as [Ra Ea].
  destruct (readdir_dir _ _ _ (Hempty "coronal" ltac:(unfold views; set_solver))) as [Rc Ec].
  destruct (readdir_dir _ _ _ (Hempty "sagittal" ltac:(unfold views; set_solver))) as [Rs Es].
  assert (Hrun : processDoseDataFile colormap python dirname npyPath outputDir niiRefPath d
                 = (d2, Ok (<["sagittal" := []]> (<["coronal" := []]> (<["axial" := []]> ∅))))).
  { unfold processDoseDataFile. rewrite Hresample, Hpreview.
    unfold views. cbn [heatViews]. rewrite Ra. cbn [heatFiles heatViews].
    rewrite Rc. cbn [heatFiles heatViews]. rewrite Rs. reflexivity. }
  split; [exact Hrun|]. split; [|split].
  - unfold processNpy. rewrite Hrun. reflexivity.
  - unfold wholebodyDoseMapListing, views. cbn [doseViews].
    rewrite Ea, Ra. cbn [length Nat.ltb Nat.leb doseViews].
    rewrite Ec, Rc. cbn [length Nat.ltb Nat.leb doseViews].
    rewrite Es, Rs. reflexivity.
  - unfold uploadNiiListing, views. cbn [uploadViews].
    rewrite Ra. cbn [uploadViews slices maxSlices]. rewrite Rc. cbn [uploadViews slices maxSlices].
    rewrite Rs. cbn [uploadViews slices maxSlices length].
    reflexivity.
Qed.

End ZeroSlices.

Lemma C6_zero_slices_witness :
  processDoseDataFile Colormap.package idle "/app" "dose.npy" "out" "ct.nii" noSlices
  = (noSlices, Ok (<["sagittal" := []]> (<["coronal" := []]> (<["axial" := []]> ∅))))
  /\ processNpy Colormap.package idle "/app" "dose.npy" "dose" "out" "ct.nii" noSlices
     = (noSlices, Json500 "NPY剂量图像生成失败" (Error "未生成任何剂量图像"))
  /\ wholebodyDoseMapListing "out" noSlices
     = Json500 "全身剂量分布图生成失败"
               (Error "未生成任何剂量切片，请检查dose_to_png.py的执行日志")
  /\ uploadNiiListing "nii_1" "out" noSlices
     = Json200 (mkUploadSlices
                  (<["axial" := []]> (<["coronal" := []]> (<["sagittal" := []]> ∅)))
                  (<["axial" := 0%nat]> (<["coronal" := 0%nat]> (<["sagittal" := 0%nat]> ∅)))).
Proof.
  apply (C6_zero_slices Colormap.package idle "/app" "dose.npy" "dose" "out" "ct.nii" "nii_1"
           noSlices noSlices noSlices).
  - reflexivity.
  - reflexivity.
  - intros view Hview. unfold views in Hview.
    apply elem_of_cons in Hview as [->|Hview]; [vm_compute; reflexivity|].
    apply elem_of_cons in Hview as [->|Hview]; [vm_compute; reflexivity|].
    apply list_elem_of_singleton in Hview as ->. vm_compute. reflexivity.
Defined.

(** C6, refuted as stated: for a dose volume that yields no slice, the
    handlers of [/process-npy] and of [/generate-wholebody-dose-map] do not
    return empty sequences; they answer with an error. *)
Lemma C6_counterexample :
  snd (processNpy Colormap.package idle "/app" "dose.npy" "dose" "out" "ct.nii" noSlices)
  = Json500 "NPY剂量图像生成失败" (Error "未生成任何剂量图像")
  /\ wholebodyDoseMapListing "out" noSlices
     = Json500 "全身剂量分布图生成失败"
               (Error "未生成任何剂量切片，请检查dose_to_png.py的执行日志").
Proof. split; vm_compute; reflexivity. Qed.

(** * Slice names and their order *)

Local Open Scope nat_scope.

Lemma append_cons (c : ascii) (s t : string) : String c s +:+ t = String c (s +:+ t).
Proof. reflexivity. Qed.

Lemma append_assoc (s t u : string) : (s +:+ t) +:+ u = s +:+ (t +:+ u).
Proof.
  induction s as [|c s IH]; [reflexivity|].
  rewrite !append_cons, IH. reflexivity.
Qed.

Lemma length_append (s t : string) :
  String.length (s +:+ t) = String.length s + String.length t.
Proof.
  induction s as [|c s IH]; [reflexivity|].
  rewrite append_cons. simpl. rewrite IH. reflexivity.
Qed.







Lemma decimalOnto_append (fuel : nat) :
  forall (n : nat) (acc : string),
    SliceNames.decimalOnto fuel n acc = SliceNames.decimalOnto fuel n EmptyString +:+ acc.
Proof.
  induction fuel as [|fuel IH]; intros n acc; [reflexivity|].
  cbn [SliceNames.decimalOnto]. destruct (n / 10 =? 0); [reflexivity|].
  rewrite (IH _ (String _ acc)), (IH _ (String _ EmptyString)), append_assoc. reflexivity.
Qed.








(** The common width matters: padded to three digits, slice 1000 would
    sort before slice 999.  A set of more than a thousand slices is padded
    to four. *)
Lemma sliceName_beyond_width :
  String.compare (SliceNames.sliceName 3 "png" 1000) (SliceNames.sliceName 3 "png" 999) = Lt
  /\ SliceNames.width 3 1001 = 4.
Proof. split; vm_compute; reflexivity. Qed.




(** A set of twelve slices from a writer of least width one: the names
    have two digits, and sorting a listing gives them back by index. *)
Lemma renderedNames_twelve :
  SliceNames.renderedNames 1 "png" 12
  = ["00.png"; "01.png"; "02.png"; "03.png"; "04.png"; "05.png";
     "06.png"; "07.png"; "08.png"; "09.png"; "10.png"; "11.png"]
  /\ jsSort (rev (SliceNames.renderedNames 1 "png" 12)) = SliceNames.renderedNames 1 "png" 12.
Proof. split; vm_compute; reflexivity. Qed.

(** * The listings of the handlers *)

Lemma views_cases (view : string) :
  view ∈ views -> view = "axial" \/ view = "coronal" \/ view = "sagittal".
Proof.
  unfold views. intros H.
  apply elem_of_cons in H as [->|H]; [left; reflexivity|].
  apply elem_of_cons in H as [->|H]; [right; left; reflexivity|].
  apply list_elem_of_singleton in H as ->. right; right; reflexivity.
Qed.

Lemma views_folders (outputDir : string) (d : disk) :
  (forall v, v ∈ views -> exists fs, d !! join outputDir v = Some (FS.Dir fs)) ->
  exists fa fc fs,
    d !! join outputDir "axial" = Some (FS.Dir fa)
    /\ d !! join outputDir "coronal" = Some (FS.Dir fc)
    /\ d !! join outputDir "sagittal" = Some (FS.Dir fs).
Proof.
  intros H.
  destruct (H "axial") as [fa Ha]; [unfold views; set_solver|].
  destruct (H "coronal") as [fc Hc]; [unfold views; set_solver|].
  destruct (H "sagittal") as [fs Hs]; [unfold views; set_solver|].
  exists fa, fc, fs. auto.
Qed.

Lemma uploadNiiListing_view (uploadFolder outputDir : string) (d : disk)
    (view : string) (files : list string) :
  (forall v, v ∈ views -> exists fs, d !! join outputDir v = Some (FS.Dir fs)) ->
  view ∈ views -> d !! join outputDir view = Some (FS.Dir files) ->
  exists r, uploadNiiListing uploadFolder outputDir d = Json200 r
            /\ slices r !! view = Some (uploadUrls uploadFolder view files)
            /\ maxSlices r !! view = Some (length files).
Proof.
  intros Hall Hview Hfiles.
  destruct (views_folders _ _ Hall) as (fa & fc & fs & Ha & Hc & Hs).
  destruct (readdir_dir _ _ _ Ha) as [Ra _].
  destruct (readdir_dir _ _ _ Hc) as [Rc _].
  destruct (readdir_dir _ _ _ Hs) as [Rs _].
  unfold uploadNiiListing, views. cbn [uploadViews].
  rewrite Ra. cbn [uploadViews slices maxSlices].
  rewrite Rc. cbn [uploadViews slices maxSlices].
  rewrite Rs. cbn [uploadViews slices maxSlices].
  eexists. split; [reflexivity|]. cbn [slices maxSlices].
  destruct (views_cases _ Hview) as [->| [->| ->]].
  - assert (files = fa) as -> by congruence.
    rewrite !(lookup_insert_ne _ "sagittal" "axial"), !(lookup_insert_ne _ "coronal" "axial")
      by discriminate.
    rewrite !lookup_insert_eq. split; reflexivity.
  - assert (files = fc) as -> by congruence.
    rewrite !(lookup_insert_ne _ "sagittal" "coronal") by discriminate.
    rewrite !lookup_insert_eq. split; reflexivity.
  - assert (files = fs) as -> by congruence.
    rewrite !lookup_insert_eq. split; reflexivity.
Qed.






(** * Further properties *)

Local Open Scope Z_scope.

(** * Further properties of the heatmap *)

Lemma byteZ_inj (c1 c2 : Byte.byte) : Jimp.byteZ c1 = Jimp.byteZ c2 -> c1 = c2.
Proof.
  intros E. rewrite <- (byteOfZ_byteZ c1), <- (byteOfZ_byteZ c2), E. reflexivity.
Qed.

(** X1: with a table of 256 shades the index computed for a pixel is its
    red byte itself: the double arithmetic loses nothing, and pixels with
    different reds never share an entry of the table. *)
Theorem X1_index_is_red (colorMap : list Colormap.shade) (q1 q2 : Jimp.quad) :
  length colorMap = 256%nat ->
  shadeIndex colorMap (pixelOf q1) = Some (Jimp.byteZ (Jimp.q0 q1))
  /\ (shadeIndex colorMap (pixelOf q1) = shadeIndex colorMap (pixelOf q2) ->
      Jimp.q0 q1 = Jimp.q0 q2).
Proof.
  intros Hlen.
  assert (E : forall q, shadeIndex colorMap (pixelOf q) = Some (Jimp.byteZ (Jimp.q0 q))).
  { intros q. rewrite (shadeIndex_256 _ _ Hlen (pixelOf_red_range q)).
    rewrite pixelOf_quad. reflexivity. }
  split; [apply E|]. rewrite !E. intros [= H]. apply byteZ_inj, H.
Qed.

Lemma X1_index_is_red_witness :
  shadeIndex hot256 (pixelOf (grayQuad 200)) = Some 200.
Proof.
  apply (X1_index_is_red hot256 (grayQuad 200) (grayQuad 200)). reflexivity.
Defined.

Lemma heatmap_wellFormed (colorMap : list Colormap.shade) (bm : Jimp.Bitmap) :
  Jimp.wellFormed bm -> Jimp.wellFormed (heatmap colorMap bm).
Proof.
  unfold Jimp.wellFormed, heatmap. simpl. rewrite length_map. auto.
Qed.

Lemma pixelOf_quadOfShade (s : Colormap.shade) :
  shadeOk s = true ->
  pixelOf (quadOfShade s)
  = Jimp.mkRGBA (Colormap.red s) (Colormap.green s) (Colormap.blue s) 255.
Proof.
  unfold shadeOk. intros H. apply andb_true_iff in H as [H Hb].
  apply andb_true_iff in H as [Hr Hg].
  apply channel_ok_range in Hr, Hg, Hb.
  rewrite pixelOf_quad. unfold quadOfShade. simpl.
  rewrite !byteZ_byteOfZ by lia. reflexivity.
Qed.

Lemma shadeOfRed_ok (colorMap : list Colormap.shade) (red : Z) :
  tableOk colorMap = true -> 0 <= red <= 255 -> shadeOk (shadeOfRed colorMap red) = true.
Proof.
  intros Hok Hr.
  destruct (element_256 colorMap (Jimp.mkRGBA red 0 0 0) Hok Hr) as [_ H]. exact H.
Qed.

Section Repeated.

Variable colormap : Colormap.options -> result (list Colormap.shade).
Variable colorMap : list Colormap.shade.
Hypothesis colormap_hot : colormap colormapOptions = Ok colorMap.
Hypothesis colorMap_ok : tableOk colorMap = true.


(** X3: the call keeps every pixel in its place: reading the pixel at
    [(x, y)] after the call gives the table colour of the red that was at
    [(x, y)] before it, fully opaque. *)
Theorem X3_pixel_stays_in_place (h : heap) (image : loc) (bm : Jimp.Bitmap) (x y : nat) :
  h !! image = Some bm -> Jimp.wellFormed bm ->
  (x < Jimp.width bm)%nat -> (y < Jimp.height bm)%nat ->
  exists h' out before after,
    generateHeatmapImage colormap h image = (h', Ok image)
    /\ h' !! image = Some out
    /\ Jimp.getPixelColor bm x y = Ok before
    /\ Jimp.getPixelColor out x y = Ok after
    /\ Jimp.intToRGBA after
       = Jimp.mkRGBA (Colormap.red (shadeOfRed colorMap (Jimp.r (Jimp.intToRGBA before))))
                     (Colormap.green (shadeOfRed colorMap (Jimp.r (Jimp.intToRGBA before))))
                     (Colormap.blue (shadeOfRed colorMap (Jimp.r (Jimp.intToRGBA before))))
                     255.
Proof.
  intros Hbm Hwf Hx Hy.
  assert (Hlt : (Jimp.width bm * y + x < length (Jimp.data bm))%nat)
    by (rewrite Hwf; nia).
  destruct (Jimp.data bm !! (Jimp.width bm * y + x)%nat) as [q|] eqn:Eq;
    [|apply lookup_ge_None in Eq; lia].
  exists (<[image := heatmap colorMap bm]> h), (heatmap colorMap bm),
         (Jimp.readUInt32BE q), (Jimp.readUInt32BE (heatQuad colorMap q)).
  split; [apply generateHeatmapImage_heatmap; assumption|].
  split; [apply lookup_insert_eq|].
  split.
  { unfold Jimp.getPixelColor. rewrite getPixelIndex_inside by assumption.
    rewrite Eq. reflexivity. }
  split.
  { unfold Jimp.getPixelColor. rewrite getPixelIndex_inside by assumption.
    unfold heatmap. cbn [Jimp.data Jimp.width].
    rewrite list_lookup_fmap, Eq. reflexivity. }
  change (Jimp.intToRGBA (Jimp.readUInt32BE q)) with (pixelOf q).
  change (Jimp.intToRGBA (Jimp.readUInt32BE (heatQuad colorMap q)))
    with (pixelOf (heatQuad colorMap q)).
  rewrite <- heatQuad_pixelOf. apply pixelOf_quadOfShade.
  apply shadeOfRed_ok; [assumption | apply pixelOf_red_range].
Qed.

End Repeated.


Lemma X3_pixel_stays_in_place_witness :
  exists h' out before after,
    generateHeatmapImage Colormap.package {[ 1%positive := slice4x4 ]} 1%positive
    = (h', Ok 1%positive)
    /\ h' !! 1%positive = Some out
    /\ Jimp.getPixelColor slice4x4 3 2 = Ok before
    /\ Jimp.getPixelColor out 3 2 = Ok after
    /\ Jimp.intToRGBA after
       = Jimp.mkRGBA (Colormap.red (shadeOfRed hot256 (Jimp.r (Jimp.intToRGBA before))))
                     (Colormap.green (shadeOfRed hot256 (Jimp.r (Jimp.intToRGBA before))))
                     (Colormap.blue (shadeOfRed hot256 (Jimp.r (Jimp.intToRGBA before))))
                     255.
Proof.
  apply (X3_pixel_stays_in_place Colormap.package hot256 package_hot hot256_ok
           {[ 1%positive := slice4x4 ]} 1%positive slice4x4 3 2);
    [reflexivity | reflexivity | simpl; lia | simpl; lia].
Defined.

(** * The pass when every file decodes *)

Lemma basename_join (dir name : string) :
  hasSlash name = false -> basename (join dir name) = name.
Proof.
  intros Hname. unfold join. induction dir as [|c dir IH].
  - change (EmptyString +:+ "/" +:+ name) with (String "/"%char name).
    cbn [basename]. rewrite Hname. reflexivity.
  - change (String c dir +:+ "/" +:+ name) with (String c (dir +:+ "/" +:+ name)).
    cbn [basename].
    assert (Hs : hasSlash (dir +:+ "/" +:+ name) = true).
    { clear IH. induction dir as [|c' dir IHd]; [reflexivity|].
      change (String c' dir +:+ "/" +:+ name) with (String c' (dir +:+ "/" +:+ name)).
      cbn [hasSlash]. rewrite IHd. apply orb_true_r. }
    rewrite Hs. exact IH.
Qed.

Lemma view_folder_not_file (outputDir v v' name : string) :
  v ∈ views -> v' ∈ views -> join outputDir v' <> join (join outputDir v) name.
Proof.
  intros Hv Hv' E. unfold join in E. rewrite !append_assoc in E.
  apply String.app_inj in E.
  destruct (views_cases _ Hv) as [->| [->| ->]];
    destruct (views_cases _ Hv') as [->| [->| ->]];
    cbv [String.append] in E; discriminate.
Qed.

Section DecodablePass.

Variable colormap : Colormap.options -> result (list Colormap.shade).
Variable colorMap : list Colormap.shade.
Hypothesis colormap_hot : colormap colormapOptions = Ok colorMap.
Hypothesis colorMap_ok : tableOk colorMap = true.

Lemma writeAsync_decodable (d : disk) (p q : string) (bm : Jimp.Bitmap) :
  Jimp.wellFormed bm -> decodable d p ->
  decodable (writeAsync d q (heatmap colorMap bm)) p.
Proof.
  intros Hwf (bm' & Hd & Hwf'). unfold writeAsync.
  destruct (decide (q = p)) as [->|N].
  - exists (heatmap colorMap bm). rewrite lookup_insert_eq. split; [reflexivity|].
    apply heatmap_wellFormed, Hwf.
  - exists bm'. rewrite lookup_insert_ne by exact N. split; assumption.
Qed.

Lemma heatFiles_all (folder : string) (files : list string) :
  forall d : disk,
    (forall f, f ∈ files -> decodable d (join folder f)) ->
    heatFiles colormap folder files d
    = (overwritten colorMap folder files d, Ok (map (join folder) files)).
Proof.
  induction files as [|file files IH]; intros d Hall; [reflexivity|].
  destruct (Hall file) as (bm & Hd & Hwf); [left|].
  rewrite (heatFiles_cons colormap colorMap colormap_hot colorMap_ok _ _ _ _ _ Hd Hwf).
  rewrite (overwritten_cons _ _ _ _ _ _ Hd).
  rewrite IH; [reflexivity|].
  intros f Hf. apply writeAsync_decodable; [exact Hwf|]. apply Hall. right. exact Hf.
Qed.

Lemma overwritten_decodable (folder : string) (files : list string) :
  forall (d : disk) (p : string),
    (forall f, f ∈ files -> decodable d (join folder f)) ->
    decodable d p -> decodable (overwritten colorMap folder files d) p.
Proof.
  induction files as [|file files IH]; intros d p Hall Hp; [exact Hp|].
  destruct (Hall file) as (bm & Hd & Hwf); [left|].
  rewrite (overwritten_cons _ _ _ _ _ _ Hd). apply IH.
  - intros f Hf. apply writeAsync_decodable; [exact Hwf|]. apply Hall. right. exact Hf.
  - apply writeAsync_decodable; assumption.
Qed.

(** X4: when every listed file of a view folder decodes, the pass succeeds
    and returns the paths of the files in the order of the listing; each
    listed file then holds the heatmap of what it held, and no other file
    has changed. *)
Theorem X4_pass_over_folder (folder : string) (files : list string) (d : disk) :
  NoDup files ->
  (forall f, f ∈ files ->
     exists bm, d !! join folder f = Some (FS.File (FS.Png bm)) /\ Jimp.wellFormed bm) ->
  exists d',
    heatFiles colormap folder files d = (d', Ok (map (join folder) files))
    /\ (forall f bm, f ∈ files -> d !! join folder f = Some (FS.File (FS.Png bm)) ->
          d' !! join folder f = Some (FS.File (FS.Png (heatmap colorMap bm))))
    /\ (forall p, (forall f, f ∈ files -> p <> join folder f) -> d' !! p = d !! p).
Proof.
  intros Hnodup Hall. exists (overwritten colorMap folder files d).
  split; [apply heatFiles_all, Hall|]. split.
  - intros f bm Hf Hd. apply overwritten_file; assumption.
  - intros p Hp. apply overwritten_other, Hp.
Qed.

Variable python : list string -> disk -> disk * result unit.
Variable dirname : string.

Lemma heatViews_all (outputDir : string) (d : disk) (fa fc fs : list string) :
  d !! join outputDir "axial" = Some (FS.Dir fa) ->
  d !! join outputDir "coronal" = Some (FS.Dir fc) ->
  d !! join outputDir "sagittal" = Some (FS.Dir fs) ->
  (forall f, f ∈ fa -> decodable d (join (join outputDir "axial") f)) ->
  (forall f, f ∈ fc -> decodable d (join (join outputDir "coronal") f)) ->
  (forall f, f ∈ fs -> decodable d (join (join outputDir "sagittal") f)) ->
  exists d',
    heatViews colormap outputDir views ∅ d
    = (d', Ok (<["sagittal" := map (join (join outputDir "sagittal")) fs]>
                (<["coronal" := map (join (join outputDir "coronal")) fc]>
                  (<["axial" := map (join (join outputDir "axial")) fa]> ∅))))
    /\ forall v es, v ∈ views -> d !! join outputDir v = Some (FS.Dir es) ->
         d' !! join outputDir v = Some (FS.Dir es).
Proof.
  intros Ha Hc Hs Da Dc Ds.
  set (d1 := overwritten colorMap (join outputDir "axial") fa d).
  set (d2 := overwritten colorMap (join outputDir "coronal") fc d1).
  set (d3 := overwritten colorMap (join outputDir "sagittal") fs d2).
  assert (Hin : forall v, v = "axial" \/ v = "coronal" \/ v = "sagittal" -> v ∈ views).
  { intros v [->| [->| ->]]; unfold views; set_solver. }
  assert (K1 : forall v, v ∈ views -> d1 !! join outputDir v = d !! join outputDir v).
  { intros v Hv. apply overwritten_other. intros f _.
    apply view_folder_not_file; [apply Hin; auto | exact Hv]. }
  assert (K2 : forall v, v ∈ views -> d2 !! join outputDir v = d !! join outputDir v).
  { intros v Hv. rewrite <- (K1 v Hv). apply overwritten_other. intros f _.
    apply view_folder_not_file; [apply Hin; auto | exact Hv]. }
  assert (K3 : forall v, v ∈ views -> d3 !! join outputDir v = d !! join outputDir v).
  { intros v Hv. rewrite <- (K2 v Hv). apply overwritten_other. intros f _.
    apply view_folder_not_file; [apply Hin; auto | exact Hv]. }
  assert (Dc1 : forall f, f ∈ fc -> decodable d1 (join (join outputDir "coronal") f)).
  { intros f Hf. apply overwritten_decodable; auto. }
  assert (Ds2 : forall f, f ∈ fs -> decodable d2 (join (join outputDir "sagittal") f)).
  { intros f Hf. apply overwritten_decodable; [exact Dc1|].
    apply overwritten_decodable; auto. }
  exists d3. split.
  - unfold views. cbn [heatViews].
    unfold readdir at 1. rewrite Ha.
    rewrite (heatFiles_all _ fa d Da). fold d1.
    unfold readdir at 1. rewrite (K1 "coronal") by (apply Hin; auto). rewrite Hc.
    rewrite (heatFiles_all _ fc d1 Dc1). fold d2.
    unfold readdir at 1. rewrite (K2 "sagittal") by (apply Hin; auto). rewrite Hs.
    rewrite (heatFiles_all _ fs d2 Ds2). reflexivity.
  - intros v es Hv Hd. rewrite (K3 v Hv). exact Hd.
Qed.

(** X5: when the scripts succeed and every file they leave in the three
    view folders decodes, the handler of [/process-npy] answers with status
    500 if the folders hold no file at all; otherwise it answers with the
    number of all files and, view by view and in the order of the listing
    of the folder (it does not sort), the address
    [/dosepng/<baseName>/<view>/<file>] of each file. *)
Theorem X5_process_npy_reply (npyPath baseName outputDir niiRefPath : string)
    (d d1 d2 : disk) (fa fc fs : list string) :
  python [join dirname "resample_npy_to_nii.py"; npyPath; niiRefPath; replaceNpySuffix npyPath] d
  = (d1, Ok tt) ->
  python [join dirname "nii_preview.py"; replaceNpySuffix npyPath; outputDir] d1 = (d2, Ok tt) ->
  d2 !! join outputDir "axial" = Some (FS.Dir fa) ->
  d2 !! join outputDir "coronal" = Some (FS.Dir fc) ->
  d2 !! join outputDir "sagittal" = Some (FS.Dir fs) ->
  (forall v f, (v = "axial" /\ f ∈ fa) \/ (v = "coronal" /\ f ∈ fc) \/ (v = "sagittal" /\ f ∈ fs) ->
     hasSlash f = false
     /\ exists bm, d2 !! join (join outputDir v) f = Some (FS.File (FS.Png bm))
                   /\ Jimp.wellFormed bm) ->
  exists d',
    processNpy colormap python dirname npyPath baseName outputDir niiRefPath d
    = (d', if (length fa + length fc + length fs =? 0)%nat
           then Json500 "NPY剂量图像生成失败" (Error "未生成任何剂量图像")
           else Json200 (mkDoseImages (length fa + length fc + length fs)
             (<["axial" := map (fun f => "/dosepng/" +:+ baseName +:+ "/axial/" +:+ f) fa]>
               (<["coronal" := map (fun f => "/dosepng/" +:+ baseName +:+ "/coronal/" +:+ f) fc]>
                 (<["sagittal" := map (fun f => "/dosepng/" +:+ baseName +:+ "/sagittal/" +:+ f) fs]>
                    ∅))))).
Proof.
  intros Hresample Hpreview Ha Hc Hs Hfiles.
  destruct (heatViews_all outputDir d2 fa fc fs Ha Hc Hs) as (d' & Hrun & _).
  { intros f Hf. apply (Hfiles "axial" f). auto. }
  { intros f Hf. apply (Hfiles "coronal" f). auto. }
  { intros f Hf. apply (Hfiles "sagittal" f). auto. }
  assert (Hp : processDoseDataFile colormap python dirname npyPath outputDir niiRefPath d
               = (d', Ok (<["sagittal" := map (join (join outputDir "sagittal")) fs]>
                           (<["coronal" := map (join (join outputDir "coronal")) fc]>
                             (<["axial" := map (join (join outputDir "axial")) fa]> ∅))))).
  { unfold processDoseDataFile. rewrite Hresample, Hpreview. exact Hrun. }
  exists d'.
  unfold processNpy. rewrite Hp.
  assert (Fa : field (<["sagittal" := map (join (join outputDir "sagittal")) fs]>
                       (<["coronal" := map (join (join outputDir "coronal")) fc]>
                         (<["axial" := map (join (join outputDir "axial")) fa]> ∅))) "axial"
               = map (join (join outputDir "axial")) fa) by reflexivity.
  assert (Fc : field (<["sagittal" := map (join (join outputDir "sagittal")) fs]>
                       (<["coronal" := map (join (join outputDir "coronal")) fc]>
                         (<["axial" := map (join (join outputDir "axial")) fa]> ∅))) "coronal"
               = map (join (join outputDir "coronal")) fc) by reflexivity.
  assert (Fs : field (<["sagittal" := map (join (join outputDir "sagittal")) fs]>
                       (<["coronal" := map (join (join outputDir "coronal")) fc]>
                         (<["axial" := map (join (join outputDir "axial")) fa]> ∅))) "sagittal"
               = map (join (join outputDir "sagittal")) fs) by reflexivity.
  rewrite Fa, Fc, Fs, !length_map.
  destruct (Nat.eqb_spec (length fa + length fc + length fs) 0) as [E|_]; [reflexivity|].
  f_equal. f_equal. f_equal. rewrite !map_map.
  assert (U : forall v l, (forall f, f ∈ l -> hasSlash f = false) ->
            map (fun x => "/dosepng/" +:+ baseName +:+ "/" +:+ v +:+ "/"
                          +:+ basename (join (join outputDir v) x)) l
            = map (fun f => "/dosepng/" +:+ baseName +:+ "/" +:+ v +:+ "/" +:+ f) l).
  { intros v l Hl. apply map_ext_in. intros f Hf.
    rewrite basename_join; [reflexivity|]. apply Hl, list_elem_of_In, Hf. }
  rewrite (U "axial" fa), (U "coronal" fc), (U "sagittal" fs).
  - reflexivity.
  - intros f Hf. apply (Hfiles "sagittal" f). auto.
  - intros f Hf. apply (Hfiles "coronal" f). auto.
  - intros f Hf. apply (Hfiles "axial" f). auto.
Qed.

End DecodablePass.

Lemma X4_pass_over_folder_witness :
  exists d',
    heatFiles Colormap.package "out/axial" ["b.png"; "a.png"] doseSlices3
    = (d', Ok ["out/axial/b.png"; "out/axial/a.png"])
    /\ d' !! "out/axial/a.png" = Some (FS.File (FS.Png (heatmap hot256 slice4x4)))
    /\ d' !! "out/coronal/000.png" = doseSlices3 !! "out/coronal/000.png".
Proof.
  destruct (X4_pass_over_folder Colormap.package hot256 package_hot hot256_ok
              "out/axial" ["b.png"; "a.png"] doseSlices3) as (d' & Hrun & Hfiles & Hother).
  - apply NoDup_cons. split; [|apply NoDup_singleton].
    intros H. apply list_elem_of_singleton in H. discriminate.
  - intros f Hf. apply elem_of_cons in Hf as [->|Hf].
    + exists tinted4x4. split; reflexivity.
    + apply list_elem_of_singleton in Hf as ->. exists slice4x4. split; reflexivity.
  - exists d'. split; [exact Hrun|]. split.
    + apply (Hfiles "a.png" slice4x4); [|reflexivity]. right. left.
    + apply Hother. intros f Hf. apply elem_of_cons in Hf as [->|Hf].
      * vm_compute. discriminate.
      * apply list_elem_of_singleton in Hf as ->. vm_compute. discriminate.
Defined.

Lemma X5_process_npy_reply_witness :
  exists d',
    processNpy Colormap.package idle "/app" "dose.npy" "dose" "out" "ct.nii" doseSlices3
    = (d', Json200 (mkDoseImages 3
         (<["axial" := ["/dosepng/dose/axial/b.png"; "/dosepng/dose/axial/a.png"]]>
           (<["coronal" := ["/dosepng/dose/coronal/000.png"]]>
             (<["sagittal" := []]> ∅))))).
Proof.
  apply (X5_process_npy_reply Colormap.package hot256 package_hot hot256_ok idle "/app"
           "dose.npy" "dose" "out" "ct.nii" doseSlices3 doseSlices3 doseSlices3
           ["b.png"; "a.png"] ["000.png"] []).
  - reflexivity.
  - reflexivity.
  - reflexivity.
  - reflexivity.
  - reflexivity.
  - intros v f [[-> Hf]| [[-> Hf]| [-> Hf]]].
    + apply elem_of_cons in Hf as [->|Hf].
      * split; [reflexivity|]. exists tinted4x4. split; reflexivity.
      * apply list_elem_of_singleton in Hf as ->.
        split; [reflexivity|]. exists slice4x4. split; reflexivity.
    + apply list_elem_of_singleton in Hf as ->.
      split; [reflexivity|]. exists slice4x4. split; reflexivity.
    + inversion Hf.
Defined.

(** * A pass that fails *)



Section FailingPass.

Variable colormap : Colormap.options -> result (list Colormap.shade).
Variable colorMap : list Colormap.shade.
Hypothesis colormap_hot : colormap colormapOptions = Ok colorMap.
Hypothesis colorMap_ok : tableOk colorMap = true.






Variable python : list string -> disk -> disk * result unit.
Variable dirname : string.


End FailingPass.


Local Open Scope nat_scope.

(** * The suffix of the dose file *)

Lemma eqb_append_longer (c : ascii) (p s : string) : String.eqb (String c (p +:+ s)) s = false.
Proof.
  apply String.eqb_neq. intros E. apply (f_equal String.length) in E.
  cbn [String.length] in E. rewrite length_append in E. lia.
Qed.

(** X6: a path that ends in [.npy] gets the suffix [.nii] instead, and
    every other path is left as it is. *)
Theorem X6_replaceNpySuffix (p s : string) :
  replaceNpySuffix (p +:+ ".npy") = p +:+ ".nii"
  /\ (endsWith s ".npy" = false -> replaceNpySuffix s = s).
Proof.
  split.
  - induction p as [|c p IH]; [reflexivity|].
    rewrite !append_cons. cbn [replaceNpySuffix].
    rewrite eqb_append_longer, IH. reflexivity.
  - induction s as [|c s IH]; intros H; [reflexivity|].
    cbn [endsWith] in H. apply orb_false_iff in H as [H1 H2].
    cbn [replaceNpySuffix]. rewrite H1, (IH H2). reflexivity.
Qed.

Lemma X6_replaceNpySuffix_witness :
  endsWith "uploads/ct.nii" ".npy" = false /\ replaceNpySuffix "uploads/ct.nii" = "uploads/ct.nii".
Proof.
  split; [reflexivity|].
  apply (X6_replaceNpySuffix EmptyString "uploads/ct.nii"). reflexivity.
Defined.

(** * Digits *)

Lemma isDigit_digit (d : nat) : d < 10 -> isDigit (SliceNames.digit d) = true.
Proof.
  intros Hd. unfold isDigit, SliceNames.digit.
  rewrite nat_ascii_embedding by lia.
  apply andb_true_iff. split; apply Nat.leb_le; lia.
Qed.

Lemma digitValue_digit (d : nat) : d < 10 -> digitValue (SliceNames.digit d) = d.
Proof.
  intros Hd. unfold digitValue, SliceNames.digit.
  rewrite nat_ascii_embedding by lia. lia.
Qed.

Lemma allDigits_append (s t : string) :
  allDigits (s +:+ t) = allDigits s && allDigits t.
Proof.
  induction s as [|c s IH]; [reflexivity|].
  rewrite append_cons. cbn [allDigits]. rewrite IH, andb_assoc. reflexivity.
Qed.

Lemma decimalOnto_digits (fuel : nat) :
  forall n, allDigits (SliceNames.decimalOnto fuel n EmptyString) = true.
Proof.
  induction fuel as [|fuel IH]; intros n; [reflexivity|].
  cbn [SliceNames.decimalOnto].
  assert (Hd : isDigit (SliceNames.digit (n mod 10)) = true)
    by (apply isDigit_digit, Nat.mod_upper_bound; lia).
  destruct (n / 10 =? 0).
  - cbn [allDigits]. rewrite Hd. reflexivity.
  - rewrite decimalOnto_append, allDigits_append, IH. cbn [allDigits]. rewrite Hd. reflexivity.
Qed.

Lemma decimalOnto_nonempty (fuel n : nat) :
  exists c s, SliceNames.decimalOnto (S fuel) n EmptyString = String c s /\ isDigit c = true.
Proof.
  pose proof (decimalOnto_digits (S fuel) n) as H.
  destruct (SliceNames.decimalOnto (S fuel) n EmptyString) as [|c s] eqn:E.
  - exfalso. cbn [SliceNames.decimalOnto] in E.
    destruct (n / 10 =? 0); [discriminate|].
    rewrite decimalOnto_append in E.
    destruct (SliceNames.decimalOnto fuel (n / 10) EmptyString); discriminate.
  - exists c, s. split; [reflexivity|]. cbn [allDigits] in H.
    apply andb_true_iff in H as [H _]. exact H.
Qed.

Lemma parseDigits_append (s : string) :
  forall (acc : nat) (t : string),
    allDigits s = true ->
    parseDigits acc (s +:+ t) = parseDigits (parseDigits acc s) t.
Proof.
  induction s as [|c s IH]; intros acc t H; [reflexivity|].
  cbn [allDigits] in H. apply andb_true_iff in H as [Hc Hs].
  rewrite append_cons. cbn [parseDigits]. rewrite Hc. apply IH, Hs.
Qed.

Lemma parseDigits_decimal (fuel : nat) :
  forall n acc,
    n < fuel ->
    exists k, parseDigits acc (SliceNames.decimalOnto fuel n EmptyString) = acc * 10 ^ k + n.
Proof.
  induction fuel as [|fuel IH]; intros n acc Hn; [lia|].
  cbn [SliceNames.decimalOnto].
  assert (Hd : n mod 10 < 10) by (apply Nat.mod_upper_bound; lia).
  destruct (Nat.eqb_spec (n / 10) 0) as [E|N].
  - exists 1. cbn [parseDigits]. rewrite isDigit_digit, digitValue_digit by exact Hd.
    pose proof (Nat.div_mod_eq n 10) as Hdm. rewrite E in Hdm.
    rewrite Nat.pow_1_r. lia.
  - rewrite decimalOnto_append.
    rewrite parseDigits_append by apply decimalOnto_digits.
    destruct (IH (n / 10) acc) as [k Hk].
    { pose proof (Nat.div_mod_eq n 10). lia. }
    rewrite Hk. exists (S k). cbn [parseDigits].
    rewrite isDigit_digit, digitValue_digit by exact Hd.
    pose proof (Nat.div_mod_eq n 10). rewrite Nat.pow_succ_r'. lia.
Qed.

(** Reading the text of a number gives the number back. *)
Lemma parseInt_numberToString (n : nat) : parseInt (numberToString n) = Some n.
Proof.
  unfold numberToString, parseInt.
  destruct (decimalOnto_nonempty n n) as (c & s & E & Hc).
  destruct (parseDigits_decimal (S n) n 0) as [k Hk]; [lia|].
  rewrite E in *. rewrite Hc. f_equal. rewrite Hk. lia.
Qed.

Lemma endsWith_append (s t : string) : endsWith (s +:+ t) t = true.
Proof.
  induction s as [|c s IH].
  - change (EmptyString +:+ t) with t. destruct t; cbn [endsWith]; rewrite String.eqb_refl; reflexivity.
  - rewrite append_cons. cbn [endsWith]. rewrite IH. apply orb_true_r.
Qed.

Lemma dropDigits_append (s t : string) :
  allDigits s = true -> dropDigits (s +:+ ".inp") = ".inp".
Proof.
  induction s as [|c s IH]; intros H; [reflexivity|].
  cbn [allDigits] in H. apply andb_true_iff in H as [Hc Hs].
  rewrite append_cons. cbn [dropDigits]. rewrite Hc. apply IH, Hs.
Qed.

Lemma isDigit_not_dot (c : ascii) : isDigit c = true -> Ascii.eqb "."%char c = false.
Proof.
  intros H. apply Ascii.eqb_neq. intros <-. discriminate.
Qed.

Lemma replaceFirst_digits_inp (s : string) :
  allDigits s = true -> replaceFirst ".inp" EmptyString (s +:+ ".inp") = s.
Proof.
  induction s as [|c s IH]; intros H; [reflexivity|].
  cbn [allDigits] in H. apply andb_true_iff in H as [Hc Hs].
  rewrite append_cons. cbn [replaceFirst stripPrefix].
  rewrite (isDigit_not_dot c Hc), (IH Hs). reflexivity.
Qed.

Lemma numbered_name (n : nat) :
  let f := numberToString n +:+ ".inp" in
  endsWith f ".inp" = true /\ isNumberedInp f = true
  /\ parseInt (replaceFirst ".inp" EmptyString f) = Some n.
Proof.
  cbv zeta. pose proof (decimalOnto_digits (S n) n) as Hall.
  fold (numberToString n) in Hall.
  split; [apply endsWith_append|]. split.
  - unfold isNumberedInp.
    destruct (decimalOnto_nonempty n n) as (c & s & E & Hc).
    fold (numberToString n) in E.
    pose proof (dropDigits_append (numberToString n) EmptyString Hall) as Hdrop.
    rewrite E in *. rewrite append_cons in *. rewrite Hc, Hdrop. reflexivity.
  - rewrite (replaceFirst_digits_inp _ Hall). apply parseInt_numberToString.
Qed.

(** * The next input file *)

Lemma foldr_max_ge (n : nat) (ns : list nat) (x : nat) :
  x ∈ n :: ns -> x <= foldr Nat.max n ns.
Proof.
  revert n. induction ns as [|m ns IH]; intros n Hx.
  - apply list_elem_of_singleton in Hx as ->. simpl. lia.
  - cbn [foldr]. apply elem_of_cons in Hx as [->|Hx].
    + assert (n <= foldr Nat.max n ns) by (apply IH; left). lia.
    + apply elem_of_cons in Hx as [->|Hx]; [lia|].
      assert (x <= foldr Nat.max n ns) by (apply IH; right; exact Hx). lia.
Qed.

Lemma nextNumber_above (entries : list string) (x : nat) :
  x ∈ existingNumbers entries -> x < nextNumber entries.
Proof.
  unfold nextNumber. destruct (existingNumbers entries) as [|n ns]; intros Hx.
  - inversion Hx.
  - apply foldr_max_ge in Hx. lia.
Qed.

Lemma existingNumbers_elem (entries : list string) (n : nat) :
  numberToString n +:+ ".inp" ∈ entries -> n ∈ existingNumbers entries.
Proof.
  intros Hin. unfold existingNumbers. apply list_elem_of_omap.
  destruct (numbered_name n) as (He & Hn & Hp).
  exists (numberToString n +:+ ".inp"). split; [|exact Hp].
  apply list_elem_of_In, filter_In. split; [apply list_elem_of_In, Hin|].
  rewrite He, Hn. reflexivity.
Qed.

(** X7: the name chosen for the next input file, [<n>.inp] with [n] one
    more than the largest number among the entries named [<digits>.inp]
    (and 1 when there is none), is the name of no entry of the folder, so
    the copy overwrites nothing; [n] is at least 1 and above every such
    number.  The numbers are taken below [2^53], where the doubles of the
    program are exact. *)
Theorem X7_target_is_fresh (entries : list string) :
  (forall x, x ∈ existingNumbers entries -> Z.of_nat x < 2 ^ 53 - 1)%Z ->
  (targetFileName entries ∉ entries)
  /\ 1 <= nextNumber entries
  /\ (forall x, x ∈ existingNumbers entries -> x < nextNumber entries)
  /\ isNumberedInp (targetFileName entries) = true.
Proof.
  intros _. split; [|split; [|split]].
  - intros Hin. apply existingNumbers_elem, nextNumber_above in Hin. lia.
  - unfold nextNumber. destruct (existingNumbers entries); lia.
  - apply nextNumber_above.
  - apply (numbered_name (nextNumber entries)).
Qed.

Lemma X7_target_is_fresh_witness :
  targetFileName ["2.inp"; "notes.txt"; "10.inp"; "x3.inp"] = "11.inp"
  /\ (targetFileName ["2.inp"; "notes.txt"; "10.inp"; "x3.inp"]
      ∉ ["2.inp"; "notes.txt"; "10.inp"; "x3.inp"]).
Proof.
  split; [reflexivity|].
  apply (X7_target_is_fresh ["2.inp"; "notes.txt"; "10.inp"; "x3.inp"]).
  intros x Hx. vm_compute in Hx.
  apply elem_of_cons in Hx as [->|Hx]; [reflexivity|].
  apply list_elem_of_singleton in Hx as ->. reflexivity.
Defined.

Lemma foldr_max_in (n : nat) (ns : list nat) : foldr Nat.max n ns ∈ n :: ns.
Proof.
  induction ns as [|m ns IH]; [left|].
  cbn [foldr]. destruct (Nat.max_spec m (foldr Nat.max n ns)) as [[_ ->]|[_ ->]].
  - apply elem_of_cons in IH as [->|IH]; [left | right; right; exact IH].
  - right. left.
Qed.

Lemma nextNumber_max (entries : list string) (m : nat) :
  m ∈ existingNumbers entries ->
  (forall x, x ∈ existingNumbers entries -> x <= m) ->
  nextNumber entries = S m.
Proof.
  unfold nextNumber. destruct (existingNumbers entries) as [|n ns]; intros Hm Hmax.
  - inversion Hm.
  - f_equal. apply Nat.le_antisymm.
    + apply Hmax, foldr_max_in.
    + apply foldr_max_ge, Hm.
Qed.

Lemma existingNumbers_spec (entries : list string) (x : nat) :
  x ∈ existingNumbers entries
  <-> exists f, f ∈ entries /\ endsWith f ".inp" && isNumberedInp f = true
                /\ parseInt (replaceFirst ".inp" EmptyString f) = Some x.
Proof.
  unfold existingNumbers. rewrite list_elem_of_omap. split.
  - intros (f & Hf & Hp). exists f. apply list_elem_of_In, filter_In in Hf as [Hf Hb].
    split; [apply list_elem_of_In, Hf|]. split; assumption.
  - intros (f & Hf & Hb & Hp). exists f. split; [|exact Hp].
    apply list_elem_of_In, filter_In. split; [apply list_elem_of_In, Hf | exact Hb].
Qed.

(** X8: builds number their input files consecutively: once the chosen
    name has joined the entries of the folder, the next build chooses the
    following number. *)
Theorem X8_consecutive_numbers (entries entries' : list string) :
  (forall x, x ∈ existingNumbers entries -> Z.of_nat x < 2 ^ 53 - 2)%Z ->
  (forall f, f ∈ entries' <-> f = targetFileName entries \/ f ∈ entries) ->
  nextNumber entries' = S (nextNumber entries)
  /\ targetFileName entries' = numberToString (S (nextNumber entries)) +:+ ".inp".
Proof.
  intros _ Hentries.
  assert (E : nextNumber entries' = S (nextNumber entries)).
  { apply nextNumber_max.
    - apply existingNumbers_elem, Hentries. left. reflexivity.
    - intros x Hx. apply existingNumbers_spec in Hx as (f & Hf & Hb & Hp).
      apply Hentries in Hf as [->|Hf].
      + destruct (numbered_name (nextNumber entries)) as (_ & _ & Hq).
        unfold targetFileName in Hp. rewrite Hq in Hp. injection Hp as <-. lia.
      + assert (x < nextNumber entries); [|lia].
        apply nextNumber_above, existingNumbers_spec. exists f. auto. }
  split; [exact E|]. unfold targetFileName. rewrite E. reflexivity.
Qed.

Lemma X8_consecutive_numbers_witness :
  nextNumber ["11.inp"; "2.inp"; "notes.txt"; "10.inp"] = 12.
Proof.
  apply (X8_consecutive_numbers ["2.inp"; "notes.txt"; "10.inp"]
           ["11.inp"; "2.inp"; "notes.txt"; "10.inp"]).
  - intros x Hx. vm_compute in Hx.
    apply elem_of_cons in Hx as [->|Hx]; [reflexivity|].
    apply list_elem_of_singleton in Hx as ->. reflexivity.
  - intros f. change (targetFileName ["2.inp"; "notes.txt"; "10.inp"]) with "11.inp".
    rewrite elem_of_cons. reflexivity.
Defined.

(** * The order of the runs *)

Lemma insertWith_Permutation {A : Type} (cmp : A -> A -> Z) (x : A) (l : list A) :
  insertWith cmp x l ≡ₚ x :: l.
Proof.
  induction l as [|y l IH]; [reflexivity|].
  cbn [insertWith]. destruct (cmp x y <=? 0)%Z; [reflexivity|].
  rewrite IH. apply perm_swap.
Qed.

Lemma sortWith_cons {A : Type} (cmp : A -> A -> Z) (x : A) (l : list A) :
  sortWith cmp (x :: l) = insertWith cmp x (sortWith cmp l).
Proof. reflexivity. Qed.

Lemma sortWith_Permutation {A : Type} (cmp : A -> A -> Z) (l : list A) :
  sortWith cmp l ≡ₚ l.
Proof.
  induction l as [|x l IH]; [reflexivity|].
  rewrite sortWith_cons, insertWith_Permutation.
  constructor. exact IH.
Qed.

Lemma byNumber_compare (a b : string) (x y : nat) :
  fileNumber a = Some x -> fileNumber b = Some y ->
  (byNumber a b <-> (compareNumbers a b <= 0)%Z)
  /\ ((0 < compareNumbers a b)%Z -> byNumber b a).
Proof.
  intros Ha Hb. unfold byNumber, compareNumbers. rewrite Ha, Hb. split; [split|]; lia.
Qed.

Lemma byNumber_trans (a b c : string) : byNumber a b -> byNumber b c -> byNumber a c.
Proof.
  unfold byNumber.
  destruct (fileNumber a), (fileNumber b), (fileNumber c); try tauto. lia.
Qed.

Lemma insertWith_sorted (x : string) (l : list string) :
  (forall f, f ∈ x :: l -> is_Some (fileNumber f)) ->
  StronglySorted byNumber l -> StronglySorted byNumber (insertWith compareNumbers x l).
Proof.
  intros Hnum Hs. induction Hs as [|y l Hl IH Hy]; cbn [insertWith].
  - repeat constructor.
  - destruct (Hnum x) as [nx Hx]; [left|].
    destruct (Hnum y) as [ny Hy']; [right; left|].
    destruct (byNumber_compare x y nx ny Hx Hy') as [Hle Hgt].
    destruct (Z.leb_spec (compareNumbers x y) 0) as [C|C].
    + apply Hle in C. constructor; [constructor; assumption|].
      constructor; [exact C|].
      apply Forall_forall. intros z Hz. rewrite Forall_forall in Hy.
      eapply byNumber_trans; [exact C | apply Hy, Hz].
    + constructor.
      * apply IH. intros f Hf. apply Hnum.
        apply elem_of_cons in Hf as [->|Hf]; [left | right; right; exact Hf].
      * apply Forall_forall. intros z Hz.
        rewrite insertWith_Permutation in Hz.
        apply elem_of_cons in Hz as [->|Hz]; [apply Hgt, C|].
        rewrite Forall_forall in Hy. apply Hy, Hz.
Qed.

Lemma sortWith_sorted (l : list string) :
  (forall f, f ∈ l -> is_Some (fileNumber f)) ->
  StronglySorted byNumber (sortWith compareNumbers l).
Proof.
  induction l as [|x l IH]; intros Hnum; [constructor|].
  rewrite sortWith_cons. apply insertWith_sorted.
  - intros f Hf. apply Hnum. rewrite sortWith_Permutation in Hf. exact Hf.
  - apply IH. intros f Hf. apply Hnum. right. exact Hf.
Qed.

(** X9: when every entry that ends in [.inp] holds a digit, the input
    files are put in ascending order of the numbers their digits spell
    ([2.inp] before [10.inp]): each such entry occurs once in the result,
    and a file never comes after one with a greater number. *)
Theorem X9_numeric_order (mcnpInputFiles : list string) :
  (forall f, f ∈ mcnpInputFiles -> endsWith f ".inp" = true ->
     exists n, fileNumber f = Some n /\ (Z.of_nat n < 2 ^ 53)%Z) ->
  sortedInputFiles mcnpInputFiles
    ≡ₚ List.filter (fun file => endsWith file ".inp") mcnpInputFiles
  /\ StronglySorted byNumber (sortedInputFiles mcnpInputFiles).
Proof.
  intros Hnum. unfold sortedInputFiles. split; [apply sortWith_Permutation|].
  apply sortWith_sorted. intros f Hf.
  apply list_elem_of_In, filter_In in Hf as [Hf He].
  destruct (Hnum f) as (n & Hn & _); [apply list_elem_of_In, Hf | exact He|].
  exists n. exact Hn.
Qed.

Lemma X9_numeric_order_witness :
  sortedInputFiles ["10.inp"; "readme.md"; "2.inp"; "1.inp"] = ["1.inp"; "2.inp"; "10.inp"]
  /\ StronglySorted byNumber (sortedInputFiles ["10.inp"; "readme.md"; "2.inp"; "1.inp"]).
Proof.
  split; [reflexivity|].
  apply (X9_numeric_order ["10.inp"; "readme.md"; "2.inp"; "1.inp"]).
  intros f Hf He.
  apply elem_of_cons in Hf as [->|Hf]; [exists 10; split; reflexivity|].
  apply elem_of_cons in Hf as [->|Hf]; [discriminate|].
  apply elem_of_cons in Hf as [->|Hf]; [exists 2; split; reflexivity|].
  apply list_elem_of_singleton in Hf as ->. exists 1. split; reflexivity.
Defined.

Section Runs.

Variable runBatch : string -> disk -> disk * result (string * string).

Lemma runInputs_all (inputDir : string) (files : list string) :
  (forall p d, exists d' out, runBatch p d = (d', Ok out)) ->
  forall d, exists d' results,
    runInputs runBatch inputDir files d = (d', Ok results) /\ map file results = files.
Proof.
  intros Hok. induction files as [|f files IH]; intros d.
  - exists d, []. split; reflexivity.
  - cbn [runInputs]. destruct (Hok (join inputDir f) d) as (d1 & out & ->).
    destruct (IH d1) as (d2 & results & -> & Hfiles).
    eexists _, _. split; [reflexivity|]. cbn [map file]. rewrite Hfiles. reflexivity.
Qed.

(** X10: the handler of [/run-mcnp-computation] answers 400 when the input
    folder has no entry ending in [.inp], whatever the runs would do.
    Otherwise, when every such entry holds a digit and every run succeeds,
    its reply holds one result for each such entry, and the files of the
    results are in ascending order of the numbers their digits spell. *)
Theorem X10_runs_follow_the_order (inputDir : string) (d : disk) (entries : list string) :
  readdir d inputDir = Ok entries ->
  (List.filter (fun file => endsWith file ".inp") entries = [] ->
   runMcnpComputation runBatch inputDir d
   = Mcnp400 "No .inp files found in the input directory")
  /\ (List.filter (fun file => endsWith file ".inp") entries <> [] ->
      (forall f, f ∈ entries -> endsWith f ".inp" = true ->
         exists n, fileNumber f = Some n /\ (Z.of_nat n < 2 ^ 53)%Z) ->
      (forall p d, exists d' out, runBatch p d = (d', Ok out)) ->
      exists results,
        runMcnpComputation runBatch inputDir d = Mcnp200 results
        /\ map file results ≡ₚ List.filter (fun file => endsWith file ".inp") entries
        /\ StronglySorted byNumber (map file results)).
Proof.
  intros Hdir. unfold runMcnpComputation. rewrite Hdir. split.
  - intros ->. reflexivity.
  - intros Hne Hnum Hok.
    destruct (List.filter (fun file => endsWith file ".inp") entries) as [|f fs] eqn:E;
      [congruence|].
    cbn [length Nat.eqb].
    destruct (runInputs_all inputDir (sortWith compareNumbers (f :: fs)) Hok d)
      as (d' & results & Hrun & Hfiles).
    rewrite Hrun. exists results. split; [reflexivity|].
    rewrite Hfiles. split; [apply sortWith_Permutation|].
    apply sortWith_sorted. intros g Hg. rewrite <- E in Hg.
    apply list_elem_of_In, filter_In in Hg as [Hg He].
    destruct (Hnum g) as (n & Hn & _); [apply list_elem_of_In, Hg | exact He|].
    exists n. exact Hn.
Qed.

End Runs.

Lemma X10_runs_follow_the_order_witness :
  exists results,
    runMcnpComputation quietRun "C:/i" inputFolder = Mcnp200 results
    /\ map file results ≡ₚ ["10.inp"; "2.inp"; "1.inp"]
    /\ StronglySorted byNumber (map file results).
Proof.
  destruct (X10_runs_follow_the_order quietRun "C:/i" inputFolder
              ["10.inp"; "readme.md"; "2.inp"; "1.inp"]) as [_ H].
  - reflexivity.
  - apply H.
    + discriminate.
    + intros f Hf He.
      apply elem_of_cons in Hf as [->|Hf]; [exists 10; split; reflexivity|].
      apply elem_of_cons in Hf as [->|Hf]; [discriminate|].
      apply elem_of_cons in Hf as [->|Hf]; [exists 2; split; reflexivity|].
      apply list_elem_of_singleton in Hf as ->. exists 1. split; reflexivity.
    + intros p d. exists d, (EmptyString, EmptyString). reflexivity.
Defined.

(** * From an axial address back to the upload folder *)

Lemma splitOn_nonempty (sep : ascii) (s : string) : splitOn sep s <> [].
Proof.
  destruct s as [|c s]; cbn [splitOn]; [discriminate|].
  destruct (Ascii.eqb c sep); [discriminate|].
  destruct (splitOn sep s); discriminate.
Qed.

Lemma splitOn_segment (s rest : string) :
  hasSlash s = false ->
  splitOn "/"%char (s +:+ String "/"%char rest) = s :: splitOn "/"%char rest.
Proof.
  induction s as [|c s IH]; intros H.
  - change (EmptyString +:+ String "/"%char rest) with (String "/"%char rest).
    reflexivity.
  - cbn [hasSlash] in H. apply orb_false_iff in H as [Hc Hs].
    rewrite append_cons. cbn [splitOn]. rewrite Hc, (IH Hs). reflexivity.
Qed.

(** X11: the folder that the handler of [/generate-wholebody-dose-map]
    takes out of an axial address, its third part between slashes, is the
    upload folder for every address that the handler of [/upload-nii]
    returns, provided the folder name holds no slash. *)
Theorem X11_upload_folder_round_trip (uploadFolder view : string) (files : list string)
    (url : string) :
  hasSlash uploadFolder = false ->
  url ∈ uploadUrls uploadFolder view files ->
  uploadFolderOf url = Some uploadFolder.
Proof.
  intros Hfolder Hurl. unfold uploadUrls in Hurl.
  apply list_elem_of_In, in_map_iff in Hurl as (f & <- & _).
  unfold uploadFolderOf.
  change ("/uploads/" +:+ uploadFolder +:+ "/slices/" +:+ view +:+ "/" +:+ f)
    with (EmptyString +:+ String "/"%char
            ("uploads" +:+ String "/"%char
               (uploadFolder +:+ String "/"%char ("slices/" +:+ view +:+ "/" +:+ f)))).
  rewrite !splitOn_segment by (try reflexivity; exact Hfolder).
  reflexivity.
Qed.

Lemma X11_upload_folder_round_trip_witness :
  uploadFolderOf "/uploads/nii_1700000000000/slices/axial/000.png" = Some "nii_1700000000000".
Proof.
  apply (X11_upload_folder_round_trip "nii_1700000000000" "axial" ["000.png"]).
  - reflexivity.
  - left.
Defined.

(** * The listings for any file names *)

(** X12: for a view folder whose files have names of ASCII characters, the
    handler of [/upload-nii] returns one address per file, in ascending
    order of the file names as strings, and the count of the files. *)
Theorem X12_upload_listing (uploadFolder outputDir view : string) (d : disk)
    (files : list string) :
  (forall v, v ∈ views -> exists fs, d !! join outputDir v = Some (FS.Dir fs)) ->
  view ∈ views -> d !! join outputDir view = Some (FS.Dir files) ->
  (forall f, f ∈ files -> asciiName f = true) ->
  exists r sorted,
    uploadNiiListing uploadFolder outputDir d = Json200 r
    /\ sorted ≡ₚ files /\ Sorted String.le sorted
    /\ slices r !! view
       = Some (map (fun file => "/uploads/" +:+ uploadFolder +:+ "/slices/" +:+ view +:+ "/"
                                +:+ file) sorted)
    /\ maxSlices r !! view = Some (length files).
Proof.
  intros Hall Hview Hfiles _.
  destruct (uploadNiiListing_view uploadFolder _ _ _ _ Hall Hview Hfiles)
    as (r & Hr & Hslices & Hmax).
  exists r, (jsSort files). split; [exact Hr|].
  split; [apply merge_sort_Permutation|].
  split; [apply Sorted_merge_sort; apply _|].
  split; [exact Hslices | exact Hmax].
Qed.

Lemma X12_upload_listing_witness :
  exists r sorted,
    uploadNiiListing "nii_1" "out" renderedSlices = Json200 r
    /\ sorted ≡ₚ ["001.png"; "000.png"] /\ Sorted String.le sorted
    /\ slices r !! "coronal"
       = Some (map (fun file => "/uploads/" +:+ "nii_1" +:+ "/slices/" +:+ "coronal" +:+ "/"
                                +:+ file) sorted)
    /\ maxSlices r !! "coronal" = Some 2.
Proof.
  apply (X12_upload_listing "nii_1" "out" "coronal" renderedSlices ["001.png"; "000.png"]).
  - intros v Hv. destruct (views_cases v Hv) as [->| [->| ->]]; eexists; reflexivity.
  - right. left.
  - reflexivity.
  - intros f Hf. apply elem_of_cons in Hf as [->|Hf]; [reflexivity|].
    apply list_elem_of_singleton in Hf as ->. reflexivity.
Defined.

Lemma uploadViews_stops (uploadFolder outputDir : string) (pre : list string)
    (view : string) (post : list string) (d : disk) (e : error) :
  (forall v, v ∈ pre -> exists fs, d !! join outputDir v = Some (FS.Dir fs)) ->
  readdir d (join outputDir view) = Err e ->
  forall acc, uploadViews uploadFolder outputDir (pre ++ view :: post) acc d = Err e.
Proof.
  intros Hpre Hview. induction pre as [|v pre IH]; intros acc.
  - simpl app. cbn [uploadViews]. rewrite Hview. reflexivity.
  - destruct (Hpre v) as [fs Hv]; [left|].
    simpl app. cbn [uploadViews]. unfold readdir at 1. rewrite Hv.
    apply IH. intros v' Hv'. apply Hpre. right. exact Hv'.
Qed.

(** X13: when a view folder is absent and the view folders before it, in
    the order axial, coronal, sagittal, can be listed, the handler of
    [/upload-nii] returns no partial listing: it answers with status 500
    and the error that listing the absent folder raises. *)
Theorem X13_upload_missing_folder (uploadFolder outputDir : string) (pre : list string)
    (view : string) (post : list string) (d : disk) :
  views = pre ++ view :: post ->
  (forall v, v ∈ pre -> exists fs, d !! join outputDir v = Some (FS.Dir fs)) ->
  d !! join outputDir view = None ->
  exists e, readdir d (join outputDir view) = Err e
            /\ uploadNiiListing uploadFolder outputDir d = Json500 "处理失败" e.
Proof.
  intros Hviews Hpre Hview.
  exists (ENOENT (join outputDir view)).
  assert (Hr : readdir d (join outputDir view) = Err (ENOENT (join outputDir view))).
  { unfold readdir. rewrite Hview. reflexivity. }
  split; [exact Hr|].
  unfold uploadNiiListing. rewrite Hviews.
  rewrite (uploadViews_stops uploadFolder outputDir pre view post d _ Hpre Hr). reflexivity.
Qed.

Lemma X13_upload_missing_folder_witness :
  exists e, readdir (delete "out/coronal" renderedSlices) (join "out" "coronal") = Err e
            /\ uploadNiiListing "nii_1" "out" (delete "out/coronal" renderedSlices)
               = Json500 "处理失败" e.
Proof.
  apply (X13_upload_missing_folder "nii_1" "out" ["axial"] "coronal" ["sagittal"]
           (delete "out/coronal" renderedSlices)).
  - reflexivity.
  - intros v Hv. apply list_elem_of_singleton in Hv as ->. eexists. reflexivity.
  - reflexivity.
Defined.





Local Open Scope Z_scope.

(** * Stepping through the dose slices *)

Lemma step_slices (this : BNCTPlatform.data) (c : BNCTPlatform.click) :
  BNCTPlatform.slices (BNCTPlatform.step this c) = BNCTPlatform.slices this.
Proof.
  destruct c as [v|v]; cbn [BNCTPlatform.step];
    unfold BNCTPlatform.previousDoseSlice, BNCTPlatform.nextDoseSlice;
    destruct (BNCTPlatform.doseSliceIndices this !! v) as [i|]; try reflexivity;
    match goal with |- context [if ?b then _ else _] => destruct b end; reflexivity.
Qed.

Lemma step_indexInRange (view : string) (this : BNCTPlatform.data) (c : BNCTPlatform.click) :
  indexInRange view this -> indexInRange view (BNCTPlatform.step this c).
Proof.
  intros (i & Hi & Hr). unfold indexInRange, doseCount. rewrite step_slices.
  fold (doseCount view this).
  destruct c as [v|v]; cbn [BNCTPlatform.step].
  - unfold BNCTPlatform.previousDoseSlice.
    destruct (BNCTPlatform.doseSliceIndices this !! v) as [j|] eqn:Ej; [|exists i; auto].
    destruct (Z.ltb_spec 0 j); [|exists i; auto].
    cbn [BNCTPlatform.doseSliceIndices].
    destruct (decide (v = view)) as [->|N].
    + rewrite lookup_insert_eq. exists (j - 1). split; [reflexivity|].
      assert (j = i) by congruence. lia.
    + rewrite lookup_insert_ne by exact N. exists i. auto.
  - unfold BNCTPlatform.nextDoseSlice.
    destruct (BNCTPlatform.doseSliceIndices this !! v) as [j|] eqn:Ej; [|exists i; auto].
    match goal with |- context [if ?b then _ else _] => destruct b eqn:Eb end;
      [|exists i; auto].
    apply Z.ltb_lt in Eb. cbn [BNCTPlatform.doseSliceIndices].
    destruct (decide (v = view)) as [->|N].
    + rewrite lookup_insert_eq. exists (j + 1). split; [reflexivity|].
      assert (j = i) by congruence. subst j. fold (doseCount view this) in Eb. lia.
    + rewrite lookup_insert_ne by exact N. exists i. auto.
Qed.

(** X15: stepping never leaves the slices of a view.  From a state in
    which the index of a view is one of its dose slices (or 0 when it has
    none), any sequence of clicks on the previous and next buttons, of any
    views, leaves the slice lists as they are and the index in that range;
    so a view that has slices always shows one of them. *)
Theorem X15_index_stays_in_range (view : string) (clicks : list BNCTPlatform.click)
    (this : BNCTPlatform.data) :
  (exists i, BNCTPlatform.doseSliceIndices this !! view = Some i
             /\ 0 <= i <= Z.max 0 (doseCount view this - 1)) ->
  let this' := foldl BNCTPlatform.step this clicks in
  BNCTPlatform.slices this' = BNCTPlatform.slices this
  /\ (exists i, BNCTPlatform.doseSliceIndices this' !! view = Some i
                /\ 0 <= i <= Z.max 0 (doseCount view this - 1))
  /\ (0 < doseCount view this -> is_Some (BNCTPlatform.shown view this')).
Proof.
  intros Hin. cbv zeta.
  assert (G : BNCTPlatform.slices (foldl BNCTPlatform.step this clicks)
              = BNCTPlatform.slices this
              /\ indexInRange view (foldl BNCTPlatform.step this clicks)).
  { revert this Hin. induction clicks as [|c clicks IH]; intros this Hin; [split; auto|].
    cbn [foldl]. destruct (IH (BNCTPlatform.step this c)) as [Hs Hr].
    - apply step_indexInRange, Hin.
    - rewrite Hs. split; [apply step_slices | exact Hr]. }
  destruct G as [Hs (i & Hi & Hr)].
  assert (Hc : doseCount view (foldl BNCTPlatform.step this clicks) = doseCount view this).
  { unfold doseCount. rewrite Hs. reflexivity. }
  rewrite Hc in Hr. split; [exact Hs|]. split; [exists i; auto|].
  intros Hpos. unfold BNCTPlatform.shown. rewrite Hi, Hs.
  destruct (Z.leb_spec 0 i); [|lia].
  apply lookup_lt_is_Some. unfold doseCount in Hr, Hpos. lia.
Qed.

Lemma X15_index_stays_in_range_witness :
  is_Some (BNCTPlatform.shown "axial"
             (foldl BNCTPlatform.step threeDoseSlices
                [BNCTPlatform.Next "axial"; BNCTPlatform.Next "axial"; BNCTPlatform.Next "axial";
                 BNCTPlatform.Previous "coronal"; BNCTPlatform.Next "axial"])).
Proof.
  apply (X15_index_stays_in_range "axial"
           [BNCTPlatform.Next "axial"; BNCTPlatform.Next "axial"; BNCTPlatform.Next "axial";
            BNCTPlatform.Previous "coronal"; BNCTPlatform.Next "axial"] threeDoseSlices).
  - exists 0. split; [reflexivity|]. vm_compute. split; discriminate.
  - reflexivity.
Defined.
